(** * spreadsheet_compressor: a shallow embedding of [compressor.py]

    The development follows the layout of
    [src/spreadsheet_compressor/compressor.py]:

    - Python values, exceptions and the insertion-ordered [dict];
    - the two [openpyxl.utils.cell] helpers the module imports;
    - [SpreadsheetCompressor._cell_to_tuple] and
      [SpreadsheetCompressor.compress_cell_references];
    - the classifier [recognize_data_type], parametrised by the two
      library calls it makes ([re.match] and [datetime.strptime]);
    - [_process_cells], with the [isinstance] test that opens it, and the
      three parsers;
    - executable models of [re.match] and [datetime.strptime] for the
      syntax the default configuration uses;
    - the specification-side notions (cells denoted by a range expression,
      the output grammar);
    - checks on concrete inputs, then the lemmas and theorems.

    Text is modelled by its UTF-8 encoding, a [string] of 8-bit characters.
    [str.strip] and the test for an empty value follow Python on every
    white space character of Unicode.  [str.isalpha], [str.isdigit],
    [str.upper], indexing into a text and the character classes of regular
    expressions are modelled on ASCII, and [str] and [int] without their
    limit of 4300 digits: the theorems that depend on them are stated for
    ASCII text and for numbers within that limit.  Logging has no effect on
    results and is left out. *)

From Stdlib Require Import Bool Arith PeanoNat Lia List String Ascii ZArith.
From Stdlib Require Import DecimalString.
From Stdlib Require Import NArith DecimalPos Permutation Sorted.
Import ListNotations.

Open Scope string_scope.
Open Scope Z_scope.

Set Implicit Arguments.

(** ** Exceptions and results *)

(** The exception classes that the modelled code can meet.  All of them are
    subclasses of [Exception]; [ValueError] is the only one the classifier
    catches by name.  [NotModelled] is no Python exception: the executable
    models of [re] and [strptime] below answer it on syntax they do not
    cover, so that nothing is claimed about Python there. *)
Inductive exn : Type :=
| ValueError
| IndexError
| TypeError
| AttributeError
| ReError                    (* re.error *)
| SpreadsheetParsingError
| NotModelled.

(** A Python call either returns or raises. *)
Inductive outcome (A : Type) : Type :=
| Ret (a : A)
| Raise (e : exn).

Arguments Ret {A} a.
Arguments Raise {A} e.

Definition bind {A B : Type} (c : outcome A) (k : A -> outcome B) : outcome B :=
  match c with
  | Ret a => k a
  | Raise e => Raise e
  end.

Notation "x <- c ;; k" := (bind c (fun x => k))
  (at level 61, c at next level, right associativity).
Notation "' p <- c ;; k" := (bind c (fun x => let p := x in k))
  (at level 61, p pattern, c at next level, right associativity).

(** [[f(x) for x in l]], stopping at the first exception. *)
Fixpoint mapM {A B : Type} (f : A -> outcome B) (l : list A) : outcome (list B) :=
  match l with
  | [] => Ret []
  | x :: l' => y <- f x ;; ys <- mapM f l' ;; Ret (y :: ys)
  end.

(** A [for] loop threading a state, stopping at the first exception. *)
Fixpoint foldM {A S : Type} (f : S -> A -> outcome S) (l : list A) (s : S) : outcome S :=
  match l with
  | [] => Ret s
  | x :: l' => s' <- f s x ;; foldM f l' s'
  end.

(** ** Characters and strings *)

Definition code (c : ascii) : N := N_of_ascii c.

Definition in_range (lo hi : N) (c : ascii) : bool :=
  (N.leb lo (code c) && N.leb (code c) hi)%bool.

Definition is_upper (c : ascii) : bool := in_range 65 90 c.
Definition is_lower (c : ascii) : bool := in_range 97 122 c.
(** [str.isalpha] and [str.isdigit] on ASCII, and the ASCII white space of
    [str.strip]: the characters 9 to 13 and 28 to 32. *)
Definition isalpha (c : ascii) : bool := (is_upper c || is_lower c)%bool.
Definition isdigit (c : ascii) : bool := in_range 48 57 c.
Definition isspace (c : ascii) : bool :=
  (in_range 9 13 c || in_range 28 32 c)%bool.

Definition upper_char (c : ascii) : ascii :=
  if is_lower c then ascii_of_N (code c - 32) else c.

Fixpoint str_map (f : ascii -> ascii) (s : string) : string :=
  match s with
  | EmptyString => EmptyString
  | String c s' => String (f c) (str_map f s')
  end.

Fixpoint str_filter (p : ascii -> bool) (s : string) : string :=
  match s with
  | EmptyString => EmptyString
  | String c s' => if p c then String c (str_filter p s') else str_filter p s'
  end.

Fixpoint str_forall (p : ascii -> bool) (s : string) : bool :=
  match s with
  | EmptyString => true
  | String c s' => (p c && str_forall p s')%bool
  end.

(** [s.upper()], on ASCII text. *)
Definition upper (s : string) : string := str_map upper_char s.

(** ASCII text: every character is below 128. *)
Definition is_ascii (s : string) : bool :=
  str_forall (fun c => N.ltb (code c) 128) s.

(** The white space of [str.strip()] beyond ASCII, as UTF-8 sequences:
    U+0085 and U+00A0 take two bytes; U+1680, U+2000 to U+200A, U+2028,
    U+2029, U+202F, U+205F and U+3000 take three. *)
Definition isspace2 (a b : ascii) : bool :=
  (N.eqb (code a) 194 && (N.eqb (code b) 133 || N.eqb (code b) 160))%bool.

Definition isspace3 (a b c : ascii) : bool :=
  ((N.eqb (code a) 225 && N.eqb (code b) 154 && N.eqb (code c) 128)
   || (N.eqb (code a) 226 && N.eqb (code b) 128
       && (in_range 128 138 c || in_range 168 169 c || N.eqb (code c) 175))
   || (N.eqb (code a) 226 && N.eqb (code b) 129 && N.eqb (code c) 159)
   || (N.eqb (code a) 227 && N.eqb (code b) 128 && N.eqb (code c) 128))%bool.

(** The text after its first character, when that character is white
    space. *)
Definition skip_space (s : string) : option string :=
  match s with
  | String a t =>
      if isspace a then Some t
      else
        match t with
        | String b u =>
            if isspace2 a b then Some u
            else
              match u with
              | String c v => if isspace3 a b c then Some v else None
              | EmptyString => None
              end
        | EmptyString => None
        end
  | EmptyString => None
  end.

(** [s.lstrip()] *)
Fixpoint lstrip (s : string) : string :=
  match s with
  | EmptyString => EmptyString
  | String a t =>
      if isspace a then lstrip t
      else
        match t with
        | String b u =>
            if isspace2 a b then lstrip u
            else
              match u with
              | String c v => if isspace3 a b c then lstrip v else s
              | EmptyString => s
              end
        | EmptyString => s
        end
  end.

(** The text is made of white space characters only (the empty text
    included). *)
Fixpoint whitespace_only (s : string) : bool :=
  match s with
  | EmptyString => true
  | String a t =>
      if isspace a then whitespace_only t
      else
        match t with
        | String b u =>
            if isspace2 a b then whitespace_only u
            else
              match u with
              | String c v => (isspace3 a b c && whitespace_only v)%bool
              | EmptyString => false
              end
        | EmptyString => false
        end
  end.

(** [s.rstrip()]: the text up to the point from which only white space
    follows. *)
Fixpoint rstrip (s : string) : string :=
  match s with
  | EmptyString => EmptyString
  | String c s' => if whitespace_only s then EmptyString else String c (rstrip s')
  end.

(** [s.strip()] *)
Definition strip (s : string) : string := rstrip (lstrip s).

(** [int(s)] on a string of ASCII decimal digits, and [str(n)] on an
    integer: what the two calls return on at most 4300 digits (CPython
    raises [ValueError] beyond). *)
Definition digit_value (c : ascii) : Z := Z.of_N (code c) - 48.

Fixpoint int_of_digits_from (acc : Z) (s : string) : Z :=
  match s with
  | EmptyString => acc
  | String c s' => int_of_digits_from (10 * acc + digit_value c) s'
  end.

Definition int_of_digits (s : string) : Z := int_of_digits_from 0 s.

Definition str_of_int (n : Z) : string := NilZero.string_of_int (Z.to_int n).

(** ** Insertion-ordered dictionaries

    A Python [dict] (and a [defaultdict(list)]) iterates in insertion order;
    assigning to a key that is present keeps its position. *)
Section Dict.
Variable V : Type.

Definition dict := list (string * V).

Fixpoint dict_get (k : string) (d : dict) : option V :=
  match d with
  | [] => None
  | (k', v) :: d' => if String.eqb k k' then Some v else dict_get k d'
  end.

(** [d[k] = v] *)
Fixpoint dict_set (k : string) (v : V) (d : dict) : dict :=
  match d with
  | [] => [(k, v)]
  | (k', v') :: d' =>
      if String.eqb k k' then (k', v) :: d' else (k', v') :: dict_set k v d'
  end.

Definition dict_keys (d : dict) : list string := map fst d.

(** [{**d, **e}]: the items of [e] are assigned into a copy of [d], in
    the order of [e]. *)
Definition dict_merge (d e : dict) : dict :=
  fold_left (fun acc kv => dict_set (fst kv) (snd kv) acc) e d.

(** An item of [d] as it stands after the items of [e] are assigned. *)
Definition override (e : dict) (kv : string * V) : string * V :=
  (fst kv, match dict_get (fst kv) e with Some r => r | None => snd kv end).

(** The key of the item is not one of [d]. *)
Definition is_new (d : dict) (kv : string * V) : bool :=
  negb (existsb (String.eqb (fst kv)) (dict_keys d)).
End Dict.

Arguments dict_get {V} k d.
Arguments dict_set {V} k v d.
Arguments dict_keys {V} d.
Arguments dict_merge {V} d e.
Arguments override {V} e kv.
Arguments is_new {V} d kv.

(** [d[k].append(x)] and [d[k].extend(xs)] on a [defaultdict(list)]. *)
Definition dict_extend {A : Type} (k : string) (xs : list A)
    (d : dict (list A)) : dict (list A) :=
  match dict_get k d with
  | Some l => dict_set k (l ++ xs)%list d
  | None => dict_set k ([] ++ xs)%list d
  end.

Definition dict_append {A : Type} (k : string) (x : A)
    (d : dict (list A)) : dict (list A) :=
  dict_extend k [x] d.

(** [{key: f(v) for key, v in d.items()}] *)
Definition dict_mapM {A B : Type} (f : A -> outcome B) (d : dict A) : outcome (dict B) :=
  mapM (fun kv => v <- f (snd kv) ;; Ret (fst kv, v)) d.

(** ** [openpyxl.utils.cell]

    The two helpers the module imports from openpyxl.  They are not code of
    this repository; they are modelled from openpyxl's documented behaviour:
    column names run from [A] (1) to [ZZZ] (18278), the name is read
    case-insensitively, and anything else raises [ValueError]. *)

Definition letter_value (c : ascii) : Z := Z.of_N (code c) - 64.

Fixpoint base26_from (acc : Z) (s : string) : Z :=
  match s with
  | EmptyString => acc
  | String c s' => base26_from (26 * acc + letter_value c) s'
  end.

Definition column_index_from_string (str_col : string) : outcome Z :=
  let u := upper str_col in
  if (str_forall is_upper u && (1 <=? length u)%nat && (length u <=? 3)%nat)%bool
  then Ret (base26_from 0 u)
  else Raise ValueError.

Definition chr (n : Z) : ascii := ascii_of_N (Z.to_N n).

(** The [while col_idx > 0] loop of [get_column_letter]; three rounds are
    enough below 18279. *)
Fixpoint column_letters (fuel : nat) (col_idx : Z) (letters : string) : string :=
  match fuel with
  | O => letters
  | S fuel' =>
      if col_idx <=? 0 then letters
      else
        let q := col_idx / 26 in
        let r := col_idx mod 26 in
        if r =? 0
        then column_letters fuel' (q - 1) (String (chr (26 + 64)) letters)
        else column_letters fuel' q (String (chr (r + 64)) letters)
  end.

Definition get_column_letter (col_idx : Z) : outcome string :=
  if ((1 <=? col_idx) && (col_idx <=? 18278))%bool
  then Ret (column_letters 3 col_idx "")
  else Raise ValueError.

(** ** The range compressor *)

(** [SpreadsheetCompressor._cell_to_tuple], on an ASCII cell reference of
    at most 4300 digits. *)
Definition _cell_to_tuple (cell_ref : string) : string * Z :=
  let col_str := str_filter isalpha cell_ref in
  let row_str := str_filter isdigit cell_ref in
  (col_str, if String.eqb row_str "" then 0 else int_of_digits row_str).

(** What [compress_cell_references] is handed as one reference: a
    two-element tuple or list of strings (sheet and cell), or a [str] (as
    the last lines of [parse_ods] and [parse_csv] hand it range
    expressions). *)
Inductive reference : Type :=
| Loc (sheet cell : string)
| Txt (s : string).

(** [s[i]], on ASCII text. *)
Definition char_at (s : string) (i : nat) : outcome string :=
  match String.get i s with
  | Some c => Ret (String c "")
  | None => Raise IndexError
  end.

(** [x[i]] *)
Definition getitem (x : reference) (i : nat) : outcome string :=
  match x with
  | Loc sheet cell =>
      match i with
      | O => Ret sheet
      | S O => Ret cell
      | _ => Raise IndexError
      end
  | Txt s => char_at s i
  end.

(** [a, b = x] *)
Definition unpack2 (x : reference) : outcome (string * string) :=
  match x with
  | Loc sheet cell => Ret (sheet, cell)
  | Txt s =>
      match s with
      | String a (String b EmptyString) => Ret (String a "", String b "")
      | _ => Raise ValueError
      end
  end.

(** The sort key [(x[0], column_index_from_string(col), row)]. *)
Definition sort_key (x : reference) : outcome (string * Z * Z) :=
  sheet <- getitem x 0 ;;
  cell <- getitem x 1 ;;
  col <- column_index_from_string (fst (_cell_to_tuple cell)) ;;
  cell' <- getitem x 1 ;;
  Ret (sheet, col, snd (_cell_to_tuple cell')).

(** Tuple comparison [k1 < k2]. *)
Definition key_lt (k1 k2 : string * Z * Z) : bool :=
  let '(s1, c1, r1) := k1 in
  let '(s2, c2, r2) := k2 in
  if String.eqb s1 s2
  then (if c1 =? c2 then r1 <? r2 else c1 <? c2)
  else String.ltb s1 s2.

(** [sorted(..., key=...)] is stable: an element is placed before the first
    one whose key is not smaller than its own. *)
Fixpoint insert_keyed {A K : Type} (lt : K -> K -> bool) (x : K * A)
    (l : list (K * A)) : list (K * A) :=
  match l with
  | [] => [x]
  | y :: l' => if lt (fst y) (fst x) then y :: insert_keyed lt x l' else x :: y :: l'
  end.

Definition sort_keyed {A K : Type} (lt : K -> K -> bool) (l : list (K * A)) : list (K * A) :=
  fold_right (insert_keyed lt) [] l.

Definition sorted_refs_of (references : list reference) : outcome (list reference) :=
  keyed <- mapM (fun x => k <- sort_key x ;; Ret (k, x)) references ;;
  Ret (map snd (sort_keyed key_lt keyed)).

(** The local function [_format_range]. *)
Definition _format_range (start_sheet start_cell end_cell : string) : string :=
  if String.eqb start_cell end_cell
  then start_sheet ++ "!" ++ start_cell
  else start_sheet ++ "!" ++ start_cell ++ ":" ++ end_cell.

(** The variables of the scanning loop. *)
Record scan : Type := Scan {
  ranges : list string;
  current_range_start_sheet : string;
  current_range_start_cell : string;
  current_range_end_sheet : string;
  current_range_end_cell : string
}.

Definition extend_range (st : scan) (cell : string) : scan :=
  Scan (ranges st) (current_range_start_sheet st) (current_range_start_cell st)
       (current_range_end_sheet st) cell.

Definition flush_range (st : scan) (sheet cell : string) : scan :=
  Scan (ranges st ++
          [_format_range (current_range_start_sheet st)
                         (current_range_start_cell st)
                         (current_range_end_cell st)])%list
       sheet cell sheet cell.

(** One round of [for i in range(1, len(sorted_refs))].  The round also
    computes [_cell_to_tuple(current_range_start_cell)], which it does not
    use. *)
Definition scan_step (st : scan) (x : reference) : outcome scan :=
  '(sheet, cell) <- unpack2 x ;;
  let '(end_col, end_row) := _cell_to_tuple (current_range_end_cell st) in
  let '(current_col, current_row) := _cell_to_tuple cell in
  if String.eqb sheet (current_range_start_sheet st) then
    if (String.eqb current_col end_col && (current_row =? end_row + 1))%bool
    then Ret (extend_range st cell)
    else if current_row =? end_row then
      ci <- column_index_from_string current_col ;;
      ce <- column_index_from_string end_col ;;
      if ci =? ce + 1 then Ret (extend_range st cell)
      else Ret (flush_range st sheet cell)
    else Ret (flush_range st sheet cell)
  else Ret (flush_range st sheet cell).

(** The body of the [try] block. *)
Definition compress_try (references : list reference) : outcome (list string) :=
  sorted_refs <- sorted_refs_of references ;;
  match sorted_refs with
  | [] => Ret []
  | first :: rest =>
      '(start_sheet, start_cell) <- unpack2 first ;;
      '(end_sheet, end_cell) <- unpack2 first ;;
      st <- foldM scan_step rest (Scan [] start_sheet start_cell end_sheet end_cell) ;;
      Ret (ranges st ++
             [_format_range (current_range_start_sheet st)
                            (current_range_start_cell st)
                            (current_range_end_cell st)])%list
  end.

(** The [except Exception] handler: [[f"{ref[0]}!{ref[1]}" for ref in references]]. *)
Definition compress_fallback (references : list reference) : outcome (list string) :=
  mapM (fun ref => a <- getitem ref 0 ;; b <- getitem ref 1 ;; Ret (a ++ "!" ++ b))
       references.

(** [SpreadsheetCompressor.compress_cell_references] *)
Definition compress_cell_references (references : list reference) : outcome (list string) :=
  match references with
  | [] => Ret []
  | _ =>
      match compress_try references with
      | Ret out => Ret out
      | Raise _ => compress_fallback references
      end
  end.

(** The compressor on a list of (sheet, cell) pairs, its declared input. *)
Definition locations (l : list (string * string)) : list reference :=
  map (fun p => Loc (fst p) (snd p)) l.

(** ** The classifier *)

(** A cell value, [Optional[Union[str, int, float]]].  A float is kept as
    the text [str] renders it to, which is all the module reads of it. *)
Inductive value : Type :=
| VNone
| VStr (s : string)
| VInt (n : Z)
| VFloat (repr : string).

(** [str(value)] *)
Definition str_of_value (v : value) : string :=
  match v with
  | VNone => "None"
  | VStr s => s
  | VInt n => str_of_int n
  | VFloat repr => repr
  end.

(** CPython refuses [str(n)] with [ValueError] on an integer of more than
    4300 digits ([sys.int_info.default_max_str_digits]); [str_of_int] is
    [str] below that limit. *)
Definition str_limit_ok (v : value) : bool :=
  match v with
  | VInt n => (length (str_of_int (Z.abs n)) <=? 4300)%nat
  | _ => true
  end.

(** The attributes [__init__] sets on the instance. *)
Record compressor : Type := Compressor {
  _patterns : dict string;
  _date_patterns : list string;
  _time_patterns : list string
}.

Definition default_patterns : dict string :=
  [ ("url", "^(https?:\/\/|www\.|ftp:\/\/|file:\/\/)[a-zA-Z0-9\-\.]+\.[a-zA-Z]{2,}(:[0-9]+)?(\/\S*)?$");
    ("year", "^(1|2)\d{3}$");
    ("integer", "^-?\d+$");
    ("percentage", "^-?\d+\.?\d*%$");
    ("scientific", "^-?\d+\.?\d*[eE][+-]?\d+$");
    ("float", "^-?\d*\.\d+$");
    ("currency", "^[$€£¥]\s*-?\d+\.?\d*$|^-?\d+\.?\d*\s*[$€£¥]$");
    ("email", "^[a-zA-Z0-9._%+-]+@[a-zA-Z0-9.-]+\.[a-zA-Z]{2,}$") ].

Definition default_date_patterns : list string :=
  [ "%Y-%m-%d"; "%d-%m-%Y"; "%m-%d-%Y"; "%Y/%m/%d"; "%d/%m/%Y"; "%m/%d/%Y";
    "%d.%m.%Y"; "%Y.%m.%d"; "%b %d, %Y"; "%B %d, %Y"; "%d %b %Y"; "%d %B %Y" ].

Definition default_time_patterns : list string :=
  [ "%H:%M"; "%H:%M:%S"; "%I:%M %p"; "%I:%M:%S %p" ].

(** [x or default] on an optional list: [None] and the empty list are falsy. *)
Definition or_default {A : Type} (x : option (list A)) (default : list A) : list A :=
  match x with
  | None | Some [] => default
  | Some l => l
  end.

(** [SpreadsheetCompressor.__init__] *)
Definition init (custom_patterns : option (dict string))
    (custom_date_patterns custom_time_patterns : option (list string)) : compressor :=
  Compressor (dict_merge default_patterns (or_default custom_patterns []))
             (or_default custom_date_patterns default_date_patterns)
             (or_default custom_time_patterns default_time_patterns).

Definition is_blank (v : value) : bool :=
  match v with
  | VNone => true
  | VStr s => String.eqb (strip s) ""
  | _ => false
  end.

Section Classifier.
(** [re_match pattern s]: whether [re.match(pattern, s)] finds a match;
    it raises [re.error] on a pattern that does not compile. *)
Variable re_match : string -> string -> outcome bool.
(** [strptime s format]: [datetime.strptime(s, format)] returns, or raises. *)
Variable strptime : string -> string -> outcome unit.

Variable self : compressor.

(** [for pattern_name, pattern in self._patterns.items()] *)
Fixpoint match_patterns (items : dict string) (value_str : string)
    : outcome (option string) :=
  match items with
  | [] => Ret None
  | (pattern_name, pattern) :: items' =>
      m <- re_match pattern value_str ;;
      if m then Ret (Some ("[" ++ upper pattern_name ++ "]"))
      else match_patterns items' value_str
  end.

(** [for pattern in formats: try: strptime(...) except ValueError: continue] *)
Fixpoint try_formats (formats : list string) (value_str : string) : outcome bool :=
  match formats with
  | [] => Ret false
  | pattern :: formats' =>
      match strptime value_str pattern with
      | Ret _ => Ret true
      | Raise ValueError => try_formats formats' value_str
      | Raise e => Raise e
      end
  end.

(** [SpreadsheetCompressor.recognize_data_type] *)
Definition recognize_data_type (v : value) : outcome string :=
  if is_blank v then Ret "Empty"
  else
    let value_str := strip (str_of_value v) in
    hit <- match_patterns (_patterns self) value_str ;;
    match hit with
    | Some category => Ret category
    | None =>
        is_date <- try_formats (_date_patterns self) value_str ;;
        if is_date then Ret "[DATE]"
        else
          is_time <- try_formats (_time_patterns self) value_str ;;
          if is_time then Ret "[TIME]" else Ret "Others"
    end.

(** ** The grid walker and the parsers *)

(** A cell of an openpyxl worksheet. *)
Record cell : Type := Cell { cell_value : value; coordinate : string }.

(** What [_process_cells] is handed: the rows of a worksheet ([ws.rows], a
    generator of tuples of cells), or a list of lists of values. *)
Inductive cells : Type :=
| WorksheetRows (rows : list (list cell))
| ListOfLists (rows : list (list value)).

Definition grouped := dict (list reference).

(** [isinstance(cells, openpyxl.worksheet.worksheet.Worksheet.rows)].
    [Worksheet.rows] is a property of the class [Worksheet], not a class:
    [isinstance] refuses it as its second argument and raises [TypeError],
    whatever [cells] is. *)
Definition isinstance_worksheet_rows (cs : cells) : outcome bool :=
  Raise TypeError.

(** [isinstance(cells, list)] *)
Definition isinstance_list (cs : cells) : bool :=
  match cs with
  | WorksheetRows _ => false
  | ListOfLists _ => true
  end.

(** The body shared by both branches once the cell reference is known:
    [if dtype == "Others": ... elif dtype != "Empty": ...]. *)
Definition group_cell (sheet_name : string) (v : value) (dtype cell_ref : string)
    (grouped_data : grouped) : grouped :=
  if String.eqb dtype "Others"
  then dict_append (str_of_value v) (Loc sheet_name cell_ref) grouped_data
  else if negb (String.eqb dtype "Empty")
  then dict_append dtype (Loc sheet_name cell_ref) grouped_data
  else grouped_data.

(** The body of [for cell in row], first branch. *)
Definition walk_cell (sheet_name : string) (grouped_data : grouped) (c : cell)
    : outcome grouped :=
  match cell_value c with
  | VNone => Ret grouped_data
  | v =>
      dtype <- recognize_data_type v ;;
      Ret (group_cell sheet_name v dtype (coordinate c) grouped_data)
  end.

(** [for col_idx, cell_value in enumerate(row, start=1)], second branch. *)
Fixpoint walk_values (sheet_name : string) (row_idx col_idx : Z)
    (row : list value) (grouped_data : grouped) : outcome grouped :=
  match row with
  | [] => Ret grouped_data
  | v :: row' =>
      g <- match v with
           | VNone => Ret grouped_data
           | _ =>
               dtype <- recognize_data_type v ;;
               col_letter <- get_column_letter col_idx ;;
               let cell_ref := col_letter ++ str_of_int row_idx in
               Ret (group_cell sheet_name v dtype cell_ref grouped_data)
           end ;;
      walk_values sheet_name row_idx (col_idx + 1) row' g
  end.

(** [for row_idx, row in enumerate(cells, start=1)] *)
Fixpoint walk_lists (sheet_name : string) (row_idx : Z)
    (rows : list (list value)) (grouped_data : grouped) : outcome grouped :=
  match rows with
  | [] => Ret grouped_data
  | row :: rows' =>
      g <- walk_values sheet_name row_idx 1 row grouped_data ;;
      walk_lists sheet_name (row_idx + 1) rows' g
  end.

(** The first branch, [for row in cells: for cell in row: cell.value ...].
    A value of a list of lists has no attribute [value]. *)
Definition worksheet_branch (cs : cells) (sheet_name : string) : outcome grouped :=
  match cs with
  | WorksheetRows rows =>
      foldM (fun g row => foldM (walk_cell sheet_name) row g) rows []
  | ListOfLists rows =>
      match List.concat rows with
      | [] => Ret []
      | _ => Raise AttributeError
      end
  end.

(** The second branch, taken by a list; anything else leaves
    [grouped_data] empty. *)
Definition list_branch (cs : cells) (sheet_name : string) : outcome grouped :=
  match cs with
  | ListOfLists rows => walk_lists sheet_name 1 rows []
  | WorksheetRows _ => Ret []
  end.

(** [SpreadsheetCompressor._process_cells].  The test that opens the
    [if] raises, so that neither branch is reached. *)
Definition _process_cells (cs : cells) (sheet_name : string)
    : outcome (dict (list string)) :=
  is_rows <- isinstance_worksheet_rows cs ;;
  grouped_data <-
    (if is_rows then worksheet_branch cs sheet_name
     else if isinstance_list cs then list_branch cs sheet_name
     else Ret []) ;;
  dict_mapM compress_cell_references grouped_data.

(** [except Exception as e: raise SpreadsheetParsingError(...)] *)
Definition reraise {A : Type} (c : outcome A) : outcome A :=
  match c with
  | Ret a => Ret a
  | Raise _ => Raise SpreadsheetParsingError
  end.

(** [if key in result: result[key].extend(value) else: result[key] = value] *)
Definition merge_sheet (result : dict (list string)) (kv : string * list string)
    : dict (list string) :=
  let '(key, v) := kv in
  match dict_get key result with
  | Some l => dict_set key (l ++ v)%list result
  | None => dict_set key v result
  end.

(** [SpreadsheetCompressor.parse_excel], from the loaded workbook on: the
    sheets in [wb.sheetnames] order, each with its rows. *)
Definition parse_excel (wb : list (string * list (list cell)))
    : outcome (dict (list string)) :=
  reraise
    (foldM (fun result ws =>
              sheet_data <- _process_cells (WorksheetRows (snd ws)) (fst ws) ;;
              Ret (fold_left merge_sheet sheet_data result))
           wb []).

(** [grouped_data[key].extend(value)] for every item of a sheet's result:
    the range expressions are put, as they are, into the lists that the
    compressor is run on next. *)
Definition extend_grouped (grouped_data : grouped) (kv : string * list string)
    : grouped :=
  dict_extend (fst kv) (map Txt (snd kv)) grouped_data.

(** [SpreadsheetCompressor.parse_ods], from [pyexcel_ods.get_data]'s
    result on: sheet name to list of rows. *)
Definition parse_ods (data : list (string * list (list value)))
    : outcome (dict (list string)) :=
  reraise
    (grouped_data <-
       foldM (fun g sheet =>
                sheet_result <- _process_cells (ListOfLists (snd sheet)) (fst sheet) ;;
                Ret (fold_left extend_grouped sheet_result g))
             data [] ;;
     dict_mapM compress_cell_references grouped_data).

(** [SpreadsheetCompressor.parse_csv], from the rows [csv.reader] yields
    on: every field is a [str]. *)
Definition parse_csv (rows : list (list string)) : outcome (dict (list string)) :=
  reraise
    (sheet_result <- _process_cells (ListOfLists (map (map VStr) rows)) "Sheet1" ;;
     let grouped_data := fold_left extend_grouped sheet_result [] in
     dict_mapM compress_cell_references grouped_data).
End Classifier.

(** ** An executable model of [re.match]

    Python's [re] is not code of this repository.  The model covers what the
    default patterns are written in: literals, [.], [^] and [$], the escapes
    [\d \D \s \S \w \W] and escaped punctuation, character sets with ranges
    and negation, groups [( )] and [(?: )], alternation, and the quantifiers
    [* + ?] and [{m} {m,} {,n} {m,n}], greedy or lazy.  [compile] answers
    [re.error] on a pattern Python rejects within that syntax and
    [NotModelled] on syntax outside it.  Matching is by derivatives: it
    decides whether some prefix of the subject matches, which is when
    [re.match] returns a match object. *)
Module Re.

Inductive cclass : Type := Digit | Space | Word.

Inductive cset_item : Type :=
| CChar (c : ascii)
| CRange (lo hi : ascii)
| CClass (positive : bool) (k : cclass).

Inductive regex : Type :=
| Void
| Eps
| Bol                                   (* ^ *)
| Eol                                   (* $ *)
| Any                                   (* . *)
| CSet (negated : bool) (items : list cset_item)
| Cat (r1 r2 : regex)
| Alt (r1 r2 : regex)
| Star (r : regex).

Definition Chr (c : ascii) : regex := CSet false [CChar c].

Definition in_class (k : cclass) (c : ascii) : bool :=
  match k with
  | Digit => isdigit c
  | Space => isspace c
  | Word => (isalpha c || isdigit c || Ascii.eqb c "_")%bool
  end.

Definition in_item (c : ascii) (i : cset_item) : bool :=
  match i with
  | CChar x => Ascii.eqb c x
  | CRange lo hi => in_range (code lo) (code hi) c
  | CClass positive k => Bool.eqb positive (in_class k c)
  end.

Definition newline : ascii := ascii_of_N 10.

(** [first]: the position is the start of the subject.  [last]: it is the
    end of the subject or just before a newline that ends it. *)
Fixpoint nullable (first last : bool) (r : regex) : bool :=
  match r with
  | Void => false
  | Eps => true
  | Bol => first
  | Eol => last
  | Any => false
  | CSet _ _ => false
  | Cat r1 r2 => (nullable first last r1 && nullable first last r2)%bool
  | Alt r1 r2 => (nullable first last r1 || nullable first last r2)%bool
  | Star _ => true
  end.

Definition cat (r1 r2 : regex) : regex :=
  match r1, r2 with
  | Void, _ => Void
  | _, Void => Void
  | Eps, _ => r2
  | _, _ => Cat r1 r2
  end.

Definition alt (r1 r2 : regex) : regex :=
  match r1, r2 with
  | Void, _ => r2
  | _, Void => r1
  | _, _ => Alt r1 r2
  end.

(** What is left of [r] once the character [c] is read at the position
    described by [first] and [last]. *)
Fixpoint deriv (first last : bool) (c : ascii) (r : regex) : regex :=
  match r with
  | Void | Eps | Bol | Eol => Void
  | Any => if Ascii.eqb c newline then Void else Eps
  | CSet negated items =>
      if Bool.eqb (existsb (in_item c) items) (negb negated) then Eps else Void
  | Cat r1 r2 =>
      alt (cat (deriv first last c r1) r2)
          (if nullable first last r1 then deriv first last c r2 else Void)
  | Alt r1 r2 => alt (deriv first last c r1) (deriv first last c r2)
  | Star r1 => cat (deriv first last c r1) (Star r1)
  end.

Fixpoint matches_from (first : bool) (r : regex) (s : string) : bool :=
  match s with
  | EmptyString => nullable first true r
  | String c s' =>
      let last := (Ascii.eqb c newline && String.eqb s' "")%bool in
      (nullable first last r || matches_from false (deriv first last c r) s')%bool
  end.

(** *** The pattern syntax *)

Fixpoint power (r : regex) (n : nat) : regex :=
  match n with
  | O => Eps
  | S n' => Cat r (power r n')
  end.

Definition optional (r : regex) : regex := Alt r Eps.

(** [r{m,}] and [r{m,n}] *)
Definition at_least (r : regex) (m : nat) : regex := Cat (power r m) (Star r).
Definition between (r : regex) (m n : nat) : regex :=
  Cat (power r m) (power (optional r) (n - m)).

Fixpoint span_digits (s : string) : string * string :=
  match s with
  | String c s' =>
      if isdigit c then let '(d, rest) := span_digits s' in (String c d, rest)
      else (EmptyString, s)
  | EmptyString => (EmptyString, EmptyString)
  end.

Definition nat_of_digits (s : string) : nat := Z.to_nat (int_of_digits s).

(** The escape [\c]. *)
Definition escape (c : ascii) : outcome cset_item :=
  if Ascii.eqb c "d" then Ret (CClass true Digit)
  else if Ascii.eqb c "D" then Ret (CClass false Digit)
  else if Ascii.eqb c "s" then Ret (CClass true Space)
  else if Ascii.eqb c "S" then Ret (CClass false Space)
  else if Ascii.eqb c "w" then Ret (CClass true Word)
  else if Ascii.eqb c "W" then Ret (CClass false Word)
  else if Ascii.eqb c "n" then Ret (CChar (ascii_of_N 10))
  else if Ascii.eqb c "t" then Ret (CChar (ascii_of_N 9))
  else if Ascii.eqb c "r" then Ret (CChar (ascii_of_N 13))
  else if Ascii.eqb c "f" then Ret (CChar (ascii_of_N 12))
  else if Ascii.eqb c "v" then Ret (CChar (ascii_of_N 11))
  else if Ascii.eqb c "a" then Ret (CChar (ascii_of_N 7))
  else if isdigit c then Raise NotModelled
  else if existsb (Ascii.eqb c) (list_ascii_of_string "bBAZxuUN") then Raise NotModelled
  else if isalpha c then Raise ReError
  else if N.leb 128 (code c) then Raise NotModelled
  else Ret (CChar c).

(** A character beyond ASCII is written as a UTF-8 lead byte followed by
    continuation bytes. *)
Definition is_lead (c : ascii) : bool := N.leb 192 (code c).
Definition is_continuation (c : ascii) : bool := in_range 128 191 c.

Fixpoint span_continuation (s : string) : string * string :=
  match s with
  | String c s' =>
      if is_continuation c
      then let '(d, rest) := span_continuation s' in (String c d, rest)
      else (EmptyString, s)
  | EmptyString => (EmptyString, EmptyString)
  end.

Fixpoint literal (s : string) : regex :=
  match s with
  | EmptyString => Eps
  | String c EmptyString => Chr c
  | String c s' => Cat (Chr c) (literal s')
  end.

(** One member of a character set: a single byte, or a character beyond
    ASCII as its byte sequence. *)
Inductive member : Type :=
| Item (i : cset_item)
| Wide (bytes : string).

Definition set_member (s : string) : outcome (member * string) :=
  match s with
  | EmptyString => Raise ReError
  | String c s' =>
      if Ascii.eqb c "\" then
        match s' with
        | EmptyString => Raise ReError
        | String e s'' => i <- escape e ;; Ret (Item i, s'')
        end
      else if is_lead c then
        let '(tail, rest) := span_continuation s' in Ret (Wide (String c tail), rest)
      else if is_continuation c then Raise NotModelled
      else Ret (Item (CChar c), s')
  end.

(** The members of a set up to the closing bracket.  [opening] holds for
    the first member, where a closing bracket is a literal. *)
Fixpoint set_members (fuel : nat) (opening : bool) (s : string)
    : outcome (list member * string) :=
  match fuel with
  | O => Raise ReError
  | S fuel' =>
      match s with
      | EmptyString => Raise ReError                 (* unterminated set *)
      | String c s' =>
          if (Ascii.eqb c "]" && negb opening)%bool then Ret ([], s')
          else
            '(lo, rest) <- set_member s ;;
            match rest with
            | String dash (String c2 rest2) =>
                if (Ascii.eqb dash "-" && negb (Ascii.eqb c2 "]"))%bool then
                  '(hi, rest') <- set_member (String c2 rest2) ;;
                  match lo, hi with
                  | Item (CChar a), Item (CChar b) =>
                      if N.leb (code a) (code b) then
                        '(ms, rest'') <- set_members fuel' false rest' ;;
                        Ret (Item (CRange a b) :: ms, rest'')
                      else Raise ReError             (* bad character range *)
                  | Item _, Item _ => Raise ReError
                  | _, _ => Raise NotModelled
                  end
                else
                  '(ms, rest') <- set_members fuel' false rest ;;
                  Ret (lo :: ms, rest')
            | _ =>
                '(ms, rest') <- set_members fuel' false rest ;;
                Ret (lo :: ms, rest')
            end
      end
  end.

Definition items_of (ms : list member) : list cset_item :=
  flat_map (fun m => match m with Item i => [i] | Wide _ => [] end) ms.

Definition wides_of (ms : list member) : list string :=
  flat_map (fun m => match m with Item _ => [] | Wide b => [b] end) ms.

(** The text after an opening bracket, up to and past the closing one. *)
Definition charset (s : string) : outcome (regex * string) :=
  let '(negated, body) :=
    match s with
    | String c s' => if Ascii.eqb c "^" then (true, s') else (false, s)
    | EmptyString => (false, s)
    end in
  '(ms, rest) <- set_members (S (length body)) true body ;;
  match wides_of ms with
  | [] => Ret (CSet negated (items_of ms), rest)
  | ws =>
      if negated then Raise NotModelled
      else Ret (fold_left (fun r w => Alt r (literal w)) ws
                          (CSet false (items_of ms)), rest)
  end.

(** The bounds of [{m}], [{m,}], [{,n}] or [{m,n}], read after the opening
    brace; [None] when the text is no repetition and the brace a literal. *)
Definition braces (s : string) : option (nat * option nat * string) :=
  let '(lo, rest) := span_digits s in
  match rest with
  | String c rest' =>
      if Ascii.eqb c "}" then
        if String.eqb lo "" then None
        else Some (nat_of_digits lo, Some (nat_of_digits lo), rest')
      else if Ascii.eqb c "," then
        let '(hi, rest'') := span_digits rest' in
        match rest'' with
        | String c' rest3 =>
            if Ascii.eqb c' "}" then
              Some (nat_of_digits lo,
                    (if String.eqb hi "" then None else Some (nat_of_digits hi)),
                    rest3)
            else None
        | EmptyString => None
        end
      else None
  | EmptyString => None
  end.

(** A quantifier, if one follows: the quantified expression and the rest. *)
Definition quantifier (r : regex) (s : string) : outcome (option (regex * string)) :=
  match s with
  | String c s' =>
      if Ascii.eqb c "*" then Ret (Some (Star r, s'))
      else if Ascii.eqb c "+" then Ret (Some (Cat r (Star r), s'))
      else if Ascii.eqb c "?" then Ret (Some (optional r, s'))
      else if Ascii.eqb c "{" then
        match braces s' with
        | Some (m, Some n, rest) =>
            if (n <? m)%nat then Raise ReError     (* min repeat greater than max *)
            else Ret (Some (between r m n, rest))
        | Some (m, None, rest) => Ret (Some (at_least r m, rest))
        | None => Ret None
        end
      else Ret None
  | EmptyString => Ret None
  end.

(** An atom followed by its quantifier.  [zero_width] holds for [^] and
    [$], which cannot be repeated. *)
Definition quantified (r : regex) (zero_width : bool) (s : string)
    : outcome (regex * string) :=
  q <- quantifier r s ;;
  match q with
  | None => Ret (r, s)
  | Some (r', rest) =>
      if zero_width then Raise ReError             (* nothing to repeat *)
      else
        match rest with
        | String c rest' =>
            if Ascii.eqb c "?" then Ret (r', rest')            (* lazy *)
            else if Ascii.eqb c "+" then Raise NotModelled   (* possessive *)
            else
              q' <- quantifier r' rest ;;
              match q' with
              | None => Ret (r', rest)
              | Some _ => Raise ReError            (* multiple repeat *)
              end
        | EmptyString => Ret (r', rest)
        end
  end.

Definition finish (alts : option regex) (seq : regex) : regex :=
  match alts with
  | None => seq
  | Some a => Alt a seq
  end.

(** The alternation that starts at [s], up to the end of the pattern or a
    closing parenthesis.  [alts] holds the branches read so far and [seq]
    the current branch. *)
Fixpoint alternation (fuel : nat) (alts : option regex) (seq : regex) (s : string)
    : outcome (regex * string) :=
  match fuel with
  | O => Raise NotModelled
  | S fuel' =>
      match s with
      | EmptyString => Ret (finish alts seq, s)
      | String c s' =>
          if Ascii.eqb c ")" then Ret (finish alts seq, s)
          else if Ascii.eqb c "|" then alternation fuel' (Some (finish alts seq)) Eps s'
          else
            '(r, rest) <-
              (if Ascii.eqb c "(" then
                 body <- match s' with
                         | String q (String k t) =>
                             if Ascii.eqb q "?"
                             then (if Ascii.eqb k ":" then Ret t else Raise NotModelled)
                             else Ret s'
                         | String q EmptyString =>
                             if Ascii.eqb q "?" then Raise ReError else Ret s'
                         | EmptyString => Ret s'
                         end ;;
                 '(g, after) <- alternation fuel' None Eps body ;;
                 match after with
                 | String _ after' => quantified g false after'
                 | EmptyString => Raise ReError        (* missing ) *)
                 end
               else if Ascii.eqb c "[" then
                 '(r, after) <- charset s' ;; quantified r false after
               else if Ascii.eqb c "\" then
                 match s' with
                 | EmptyString => Raise ReError        (* bad escape *)
                 | String e after => i <- escape e ;; quantified (CSet false [i]) false after
                 end
               else if Ascii.eqb c "." then quantified Any false s'
               else if Ascii.eqb c "^" then quantified Bol true s'
               else if Ascii.eqb c "$" then quantified Eol true s'
               else if existsb (Ascii.eqb c) (list_ascii_of_string "*+?")
               then Raise ReError                      (* nothing to repeat *)
               else if is_lead c then
                 let '(tail, after) := span_continuation s' in
                 quantified (literal (String c tail)) false after
               else if is_continuation c then Raise NotModelled
               else quantified (Chr c) false s') ;;
            alternation fuel' alts (Cat seq r) rest
      end
  end.

(** [re.compile(pattern)] *)
Definition compile (pattern : string) : outcome regex :=
  '(r, rest) <- alternation (S (length pattern)) None Eps pattern ;;
  match rest with
  | EmptyString => Ret r
  | _ => Raise ReError                                 (* unbalanced parenthesis *)
  end.

(** [re.match(pattern, s) is not None] *)
Definition py_match (pattern s : string) : outcome bool :=
  r <- compile pattern ;;
  Ret (matches_from true r s).

End Re.

(** ** An executable model of [datetime.strptime]

    Python's [_strptime] is not code of this repository.  The model follows
    its steps for the directives of the default formats ([%Y %m %d %H %I %M
    %S %p %b %B] and [%%]), in the C locale: the format is turned into a
    sequence of groups, each an ordered list of alternatives; the subject is
    matched from its start, case-insensitively and with backtracking in
    Python's order; text left over, a date that does not exist or a second
    above 59 raise [ValueError].  A directive Python does not know raises
    [ValueError], one used twice raises [re.error] (the group name is
    defined twice), and one Python knows but the model does not is answered
    by [NotModelled]. *)
Module Strptime.

Inductive directive : Type := dY | dm | dd | dH | dI | dM | dS | dp | db | dB.

Inductive token : Type :=
| Lit (c : ascii)
| Spaces                                  (* \s+ *)
| Dir (d : directive).

Definition directive_eqb (a b : directive) : bool :=
  match a, b with
  | dY, dY | dm, dm | dd, dd | dH, dH | dI, dI
  | dM, dM | dS, dS | dp, dp | db, db | dB, dB => true
  | _, _ => false
  end.

(** The character after a percent sign. *)
Definition directive_of (c : ascii) : outcome token :=
  if Ascii.eqb c "%" then Ret (Lit "%")
  else if Ascii.eqb c "Y" then Ret (Dir dY)
  else if Ascii.eqb c "m" then Ret (Dir dm)
  else if Ascii.eqb c "d" then Ret (Dir dd)
  else if Ascii.eqb c "H" then Ret (Dir dH)
  else if Ascii.eqb c "I" then Ret (Dir dI)
  else if Ascii.eqb c "M" then Ret (Dir dM)
  else if Ascii.eqb c "S" then Ret (Dir dS)
  else if Ascii.eqb c "p" then Ret (Dir dp)
  else if Ascii.eqb c "b" then Ret (Dir db)
  else if Ascii.eqb c "B" then Ret (Dir dB)
  else if existsb (Ascii.eqb c) (list_ascii_of_string "aAcfGjuUVwWxXyzZ")
  then Raise NotModelled
  else Raise ValueError.                  (* bad directive *)

(** The format read left to right; a run of white space is one [\s+]. *)
Fixpoint scan (in_space : bool) (format : string) : list (outcome token) :=
  match format with
  | EmptyString => []
  | String c rest =>
      if Ascii.eqb c "%" then
        match rest with
        | EmptyString => [Raise ValueError]          (* stray % *)
        | String d rest' => directive_of d :: scan false rest'
        end
      else if isspace c then
        if in_space then scan true rest else Ret Spaces :: scan true rest
      else Ret (Lit c) :: scan false rest
  end.

Definition raises (e : exn) (t : outcome token) : bool :=
  match t, e with
  | Raise ValueError, ValueError => true
  | Raise NotModelled, NotModelled => true
  | _, _ => false
  end.

Definition tokens_of (l : list (outcome token)) : list token :=
  flat_map (fun t => match t with Ret x => [x] | Raise _ => [] end) l.

Definition directives_of (ts : list token) : list directive :=
  flat_map (fun t => match t with Dir d => [d] | _ => [] end) ts.

Fixpoint has_duplicate (ds : list directive) : bool :=
  match ds with
  | [] => false
  | d :: ds' => (existsb (directive_eqb d) ds' || has_duplicate ds')%bool
  end.

(** [_TimeRE_cache.compile(format)], with the errors [_strptime] turns
    into [ValueError]. *)
Definition compile (format : string) : outcome (list token) :=
  let scanned := scan false format in
  if existsb (raises ValueError) scanned then Raise ValueError
  else if existsb (raises NotModelled) scanned then Raise NotModelled
  else
    let ts := tokens_of scanned in
    if has_duplicate (directives_of ts) then Raise ReError else Ret ts.

(** *** The groups *)

Definition cs := ascii -> bool.

Definition one (c : ascii) : cs := Ascii.eqb c.
Definition range (lo hi : ascii) : cs := in_range (code lo) (code hi).
Definition digit : cs := isdigit.

Definition lower_char (c : ascii) : ascii :=
  if is_upper c then ascii_of_N (code c + 32) else c.

(** Equality of characters under [re.IGNORECASE]. *)
Definition ieq (a b : ascii) : bool := Ascii.eqb (lower_char a) (lower_char b).

Definition word (s : string) : list cs := map ieq (list_ascii_of_string s).

Definition a_month : list string :=
  ["jan"; "feb"; "mar"; "apr"; "may"; "jun"; "jul"; "aug"; "sep"; "oct"; "nov"; "dec"].

Definition f_month : list string :=
  ["january"; "february"; "march"; "april"; "may"; "june"; "july"; "august";
   "september"; "october"; "november"; "december"].

Definition am_pm : list string := ["am"; "pm"].

(** The alternatives of a directive's group, in the order [_strptime]
    writes them; no month name is a prefix of another, so the names are
    listed in calendar order. *)
Definition alternatives (d : directive) : list (list cs) :=
  match d with
  | dd => [ [one "3"; range "0" "1"]; [range "1" "2"; digit]; [one "0"; range "1" "9"];
            [range "1" "9"]; [one " "; range "1" "9"] ]
  | dm => [ [one "1"; range "0" "2"]; [one "0"; range "1" "9"]; [range "1" "9"] ]
  | dY => [ [digit; digit; digit; digit] ]
  | dH => [ [one "2"; range "0" "3"]; [range "0" "1"; digit]; [digit] ]
  | dI => [ [one "1"; range "0" "2"]; [one "0"; range "1" "9"]; [range "1" "9"] ]
  | dM => [ [range "0" "5"; digit]; [digit] ]
  | dS => [ [one "6"; range "0" "1"]; [range "0" "5"; digit]; [digit] ]
  | dp => map word am_pm
  | db => map word a_month
  | dB => map word f_month
  end.

(** An alternative against the start of [s]: the text it takes and the rest. *)
Fixpoint take (a : list cs) (s : string) : option (string * string) :=
  match a with
  | [] => Some (EmptyString, s)
  | p :: a' =>
      match s with
      | String c s' =>
          if p c then
            match take a' s' with
            | Some (text, rest) => Some (String c text, rest)
            | None => None
            end
          else None
      | EmptyString => None
      end
  end.

Definition found := list (directive * string).

(** The first alternative after which the rest of the format matches. *)
Fixpoint first_alternative (k : string -> option (found * string)) (d : directive)
    (alts : list (list cs)) (s : string) : option (found * string) :=
  match alts with
  | [] => None
  | a :: alts' =>
      match take a s with
      | Some (text, rest) =>
          match k rest with
          | Some (fields, remaining) => Some ((d, text) :: fields, remaining)
          | None => first_alternative k d alts' s
          end
      | None => first_alternative k d alts' s
      end
  end.

Fixpoint drop (n : nat) (s : string) : string :=
  match n, s with
  | S n', String _ s' => drop n' s'
  | _, _ => s
  end.

Fixpoint count_spaces (s : string) : nat :=
  match s with
  | String c s' => if isspace c then S (count_spaces s') else O
  | EmptyString => O
  end.

(** [\s+]: as many white-space characters as possible, then fewer. *)
Fixpoint first_spaces (k : string -> option (found * string)) (n : nat) (s : string)
    : option (found * string) :=
  match n with
  | O => None
  | S n' =>
      match k (drop n s) with
      | Some r => Some r
      | None => first_spaces k n' s
      end
  end.

(** [format_regex.match(data_string)]: the groups found and the text left. *)
Fixpoint run (ts : list token) (s : string) : option (found * string) :=
  match ts with
  | [] => Some ([], s)
  | Lit c :: ts' =>
      match s with
      | String x s' => if ieq c x then run ts' s' else None
      | EmptyString => None
      end
  | Spaces :: ts' => first_spaces (run ts') (count_spaces s) s
  | Dir d :: ts' => first_alternative (run ts') d (alternatives d) s
  end.

(** *** The values found *)

Record fields : Type := Fields {
  year : option Z;
  month : Z;
  day : Z;
  second : Z
}.

Fixpoint index_of (names : list string) (text : string) (i : Z) : Z :=
  match names with
  | [] => i
  | n :: names' =>
      if String.eqb n (str_map lower_char text) then i else index_of names' text (i + 1)
  end.

Definition int (text : string) : Z := int_of_digits (strip text).

(** [for group_key in found_dict.keys()]; the hour and the minute cannot
    be out of range and are not kept. *)
Definition record (f : fields) (g : directive * string) : fields :=
  let '(d, text) := g in
  match d with
  | dY => Fields (Some (int text)) (month f) (day f) (second f)
  | dm => Fields (year f) (int text) (day f) (second f)
  | db => Fields (year f) (index_of a_month text 1) (day f) (second f)
  | dB => Fields (year f) (index_of f_month text 1) (day f) (second f)
  | dd => Fields (year f) (month f) (int text) (second f)
  | dS => Fields (year f) (month f) (day f) (int text)
  | dH | dI | dM | dp => f
  end.

Definition is_leap (y : Z) : bool :=
  ((y mod 4 =? 0) && (negb (y mod 100 =? 0) || (y mod 400 =? 0)))%bool.

Definition days_in_month (y m : Z) : Z :=
  if m =? 2 then (if is_leap y then 29 else 28)
  else if existsb (Z.eqb m) [4; 6; 9; 11] then 30
  else 31.

(** The date and time exist: [datetime_date(year, month, day)] and the
    [datetime] constructor accept them; the year is 1900 when the format
    has none. *)
Definition exists_ (f : fields) : bool :=
  let y := match year f with
           | Some y => y
           | None => 1900
           end in
  ((1 <=? y) && (y <=? 9999) && (1 <=? month f) && (month f <=? 12)
   && (1 <=? day f) && (day f <=? days_in_month y (month f))
   && (second f <=? 59))%bool.

(** [datetime.strptime(data_string, format)] returns. *)
Definition py_strptime (data_string format : string) : outcome unit :=
  ts <- compile format ;;
  match run ts data_string with
  | None => Raise ValueError                 (* does not match format *)
  | Some (fs, remaining) =>
      if negb (String.eqb remaining "") then Raise ValueError  (* unconverted data *)
      else if exists_ (fold_left record fs (Fields None 1 1 0)) then Ret tt
      else Raise ValueError
  end.

End Strptime.

(** ** The instance on the Python models *)

Definition py_recognize_data_type (self : compressor) (v : value) : outcome string :=
  recognize_data_type Re.py_match Strptime.py_strptime self v.

(** [SpreadsheetCompressor()] *)
Definition default_compressor : compressor := init None None None.

(** ** Specification-side notions

    The definitions of this part follow the words of the specification, not
    the source: what a range expression denotes, which strings are range
    expressions, and the aggregation order the specification describes. *)

Fixpoint span (p : ascii -> bool) (s : string) : string * string :=
  match s with
  | String c s' =>
      if p c then let '(a, b) := span p s' in (String c a, b) else (EmptyString, s)
  | EmptyString => (EmptyString, EmptyString)
  end.

(** The text before and after the first, or the last, occurrence of [sep]. *)
Fixpoint split_first (sep : ascii) (s : string) : option (string * string) :=
  match s with
  | EmptyString => None
  | String c s' =>
      if Ascii.eqb c sep then Some (EmptyString, s')
      else match split_first sep s' with
           | Some (a, b) => Some (String c a, b)
           | None => None
           end
  end.

Fixpoint split_last (sep : ascii) (s : string) : option (string * string) :=
  match s with
  | EmptyString => None
  | String c s' =>
      match split_last sep s' with
      | Some (a, b) => Some (String c a, b)
      | None => if Ascii.eqb c sep then Some (EmptyString, s') else None
      end
  end.

(** [Cell]: one or more upper-case letters followed by one or more digits. *)
Definition is_cell (s : string) : bool :=
  let '(letters, digits) := span is_upper s in
  (negb (String.eqb letters "") && negb (String.eqb digits "")
   && str_forall isdigit digits)%bool.

(** The grammar [Sheet!Cell] or [Sheet!Cell:Cell]. *)
Definition is_range_expression (e : string) : bool :=
  match split_last "!" e with
  | Some (_, rest) =>
      (is_cell rest
       || match split_first ":" rest with
          | Some (a, b) => (is_cell a && is_cell b)%bool
          | None => false
          end)%bool
  | None => false
  end.

(** A range expression taken apart: the sheet, the start and the end cell
    (the end is the start for a singleton). *)
Definition range_parts (e : string) : option (string * string * string) :=
  match split_last "!" e with
  | Some (sheet, rest) =>
      match split_first ":" rest with
      | Some (a, b) => Some (sheet, a, b)
      | None => Some (sheet, rest, rest)
      end
  | None => None
  end.

Definition between (lo hi : Z) : list Z :=
  map (fun i => lo + Z.of_nat i) (seq 0 (Z.to_nat (hi - lo + 1))).

Definition column_name (col : Z) : string :=
  match get_column_letter col with
  | Ret letters => letters
  | Raise _ => EmptyString
  end.

Definition column_number (letters : string) : Z :=
  match column_index_from_string letters with
  | Ret n => n
  | Raise _ => 0
  end.

(** The cell locations a range expression denotes: the one cell of a
    singleton, every cell the range covers for a run. *)
Definition implied_locations (e : string) : list (string * string) :=
  match range_parts e with
  | Some (sheet, a, b) =>
      if String.eqb a b then [(sheet, a)]
      else
        let '(col_a, row_a) := _cell_to_tuple a in
        let '(col_b, row_b) := _cell_to_tuple b in
        flat_map (fun col =>
                    map (fun row => (sheet, column_name col ++ str_of_int row))
                        (between row_a row_b))
                 (between (column_number col_a) (column_number col_b))
  | None => []
  end.

(** Decompression of a compressor output. *)
Definition decompress (out : list string) : list (string * string) :=
  flat_map implied_locations out.

(** A range expression is one axis-aligned run: its two ends share their
    column letters or share their row number. *)
Definition axis_aligned (e : string) : bool :=
  match range_parts e with
  | Some (_, a, b) =>
      let '(col_a, row_a) := _cell_to_tuple a in
      let '(col_b, row_b) := _cell_to_tuple b in
      (String.eqb col_a col_b || (row_a =? row_b))%bool
  | None => false
  end.

(** The number of times a location occurs in a list. *)
Definition location_eqb (p q : string * string) : bool :=
  (String.eqb (fst p) (fst q) && String.eqb (snd p) (snd q))%bool.

Definition occurrences (p : string * string) (l : list (string * string)) : nat :=
  List.length (filter (location_eqb p) l).

(** The column letters of a cell reference are a column name of openpyxl. *)
Definition column_ok (cell : string) : bool :=
  match column_index_from_string (fst (_cell_to_tuple cell)) with
  | Ret _ => true
  | Raise _ => false
  end.

Definition reference_ok (x : reference) : bool :=
  match x with
  | Loc _ cell => column_ok cell
  | Txt _ => false
  end.

(** ** The compressor on locations, as a function of the sorted list *)

(** The extension test of the scan on two cell references: the second is
    one row below the first in the same column letters, or one column to
    its right in the same row. *)
Definition steps_to (prev cur : string) : bool :=
  let '(prev_col, prev_row) := _cell_to_tuple prev in
  let '(cur_col, cur_row) := _cell_to_tuple cur in
  ((String.eqb cur_col prev_col && (cur_row =? prev_row + 1))
   || ((cur_row =? prev_row)
       && (column_number cur_col =? column_number prev_col + 1)))%bool.

(** The sort key of a location whose column letters are a column name. *)
Definition key_of (p : string * string) : string * Z * Z :=
  (fst p, column_number (fst (_cell_to_tuple (snd p))), snd (_cell_to_tuple (snd p))).

(** The locations in the order [sorted] puts them in. *)
Definition sorted_locations (refs : list (string * string)) : list (string * string) :=
  map snd (sort_keyed key_lt (map (fun p => (key_of p, p)) refs)).

(** A run of the scan: its first location and the locations that extended
    it, in order. *)
Definition run : Type := ((string * string) * list (string * string))%type.

Definition run_cells (r : run) : list (string * string) := fst r :: snd r.

Definition run_last (r : run) : string * string := last (snd r) (fst r).

(** The range expression of a run. *)
Definition render_run (r : run) : string :=
  _format_range (fst (fst r)) (snd (fst r)) (snd (run_last r)).

(** The next location extends the open run: it is on the sheet of the
    run's first location and one step from its last cell. *)
Definition continues (first last_ p : string * string) : bool :=
  (String.eqb (fst p) (fst first) && steps_to (snd last_) (snd p))%bool.

(** The runs the scan cuts a list into, given the open run's first and last
    locations and, in reverse, the locations that extended it so far. *)
Fixpoint segment (l : list (string * string)) (first last_ : string * string)
    (acc : list (string * string)) : list run :=
  match l with
  | [] => [(first, rev acc)]
  | p :: l' =>
      if continues first last_ p then segment l' first p (p :: acc)
      else (first, rev acc) :: segment l' p p []
  end.

Definition runs_of (l : list (string * string)) : list run :=
  match l with
  | [] => []
  | p :: l' => segment l' p p []
  end.

(** The locations of a run after the first are on the first one's sheet,
    each one step from the one before. *)
Fixpoint chained (first prev : string * string) (l : list (string * string)) : Prop :=
  match l with
  | [] => True
  | p :: l' =>
      fst p = fst first /\ steps_to (snd prev) (snd p) = true /\ chained first p l'
  end.

(** No run could have taken the first location of the next one. *)
Fixpoint separated (rs : list run) : Prop :=
  match rs with
  | r1 :: ((r2 :: _) as rest) =>
      continues (fst r1) (run_last r1) (fst r2) = false /\ separated rest
  | _ => True
  end.

(** The fallback text of a location. *)
Definition fallback_text (p : string * string) : string := fst p ++ "!" ++ snd p.

(** Two neighbours of the sorted list are not inverted: the key of the
    second is not below the key of the first. *)
Definition in_order (a b : string * string) : Prop :=
  key_lt (key_of b) (key_of a) = false.

(** A cell reference that the model and Python read alike: ASCII text,
    column letters that are a column name, and at most 4300 row digits
    (beyond which [int] refuses the text with [ValueError]). *)
Definition plain_cell (cell : string) : bool :=
  (is_ascii cell && column_ok cell
   && (length (str_filter isdigit cell) <=? 4300)%nat)%bool.

(** ** The default patterns on decimal numerals

    The compiled forms of the first three default patterns, and what is
    left of the integer pattern after a sign and after a digit. *)

Definition compiled (pattern : string) : Re.regex :=
  match Re.compile pattern with
  | Ret r => r
  | Raise _ => Re.Void
  end.

Definition url_regex : Re.regex :=
  Eval vm_compute in
    compiled "^(https?:\/\/|www\.|ftp:\/\/|file:\/\/)[a-zA-Z0-9\-\.]+\.[a-zA-Z]{2,}(:[0-9]+)?(\/\S*)?$".

Definition year_regex : Re.regex := Eval vm_compute in compiled "^(1|2)\d{3}$".

Definition integer_regex : Re.regex := Eval vm_compute in compiled "^-?\d+$".

Definition integer_after_sign : Re.regex :=
  Eval vm_compute in Re.deriv true false "-" integer_regex.

Definition integer_after_digit : Re.regex :=
  Eval vm_compute in Re.deriv true false "0" integer_regex.

(** Every character. *)
Definition all_ascii : list ascii :=
  map (fun n => ascii_of_N (N.of_nat n)) (seq 0 256).

Definition digits10 : list ascii := list_ascii_of_string "0123456789".

(** The texts of [n] decimal digits. *)
Fixpoint digit_strings (n : nat) : list string :=
  match n with
  | O => [""]
  | S n' => flat_map (fun c => map (String c) (digit_strings n')) digits10
  end.

Definition is_void (r : Re.regex) : bool :=
  match r with
  | Re.Void => true
  | _ => false
  end.

Definition regex_eq_dec : forall a b : Re.regex, {a = b} + {a <> b}.
Proof.
  assert (K : forall a b : Re.cclass, {a = b} + {a <> b}) by decide equality.
  assert (I : forall a b : Re.cset_item, {a = b} + {a <> b})
    by (decide equality; auto using ascii_dec, bool_dec).
  pose proof (list_eq_dec I) as L.
  decide equality; auto using bool_dec.
Defined.

Definition regex_eqb (a b : Re.regex) : bool :=
  if regex_eq_dec a b then true else false.

(** What a digit, read first or later, leaves of the integer pattern and of
    the URL pattern. *)
Definition digit_check (c : ascii) : bool :=
  implb (isdigit c)
    (negb (Ascii.eqb c Re.newline)
     && existsb (Ascii.eqb c) digits10
     && regex_eqb (Re.deriv true false c integer_regex) integer_after_digit
     && regex_eqb (Re.deriv false false c integer_after_sign) integer_after_digit
     && regex_eqb (Re.deriv false false c integer_after_digit) integer_after_digit
     && is_void (Re.deriv true false c url_regex))%bool.

(** Whether [r], read from the start of a text of digits [s], matches a
    prefix of it or is still alive at its end. *)
Fixpoint survives (first : bool) (r : Re.regex) (s : string) : bool :=
  match s with
  | EmptyString => negb (is_void r)
  | String c s' =>
      (Re.nullable first false r || survives false (Re.deriv first false c r) s')%bool
  end.

(** A decimal numeral: digits, at least one, after an optional minus sign. *)
Definition is_numeral (s : string) : bool :=
  match s with
  | String c t =>
      if Ascii.eqb c "-"
      then (negb (String.eqb t "") && str_forall isdigit t)%bool
      else str_forall isdigit s
  | EmptyString => false
  end.

(** Four digits, the first of them 1 or 2. *)
Definition is_year_text (s : string) : bool :=
  match s with
  | String c (String d1 (String d2 (String d3 EmptyString))) =>
      ((Ascii.eqb c "1" || Ascii.eqb c "2")
       && isdigit d1 && isdigit d2 && isdigit d3)%bool
  | _ => false
  end.

(** ** The compressor on texts

    What the [except] handler makes of a reference that is an ASCII text:
    its first character, [!], and its second character. *)
Definition text_fallback (s : string) : string :=
  match s with
  | String a (String b _) => String a (String "!" (String b ""))
  | _ => EmptyString
  end.

Definition is_text_of (n : nat) (x : reference) : Prop :=
  match x with
  | Txt s => (n <= length s)%nat
  | Loc _ _ => False
  end.

Unset Implicit Arguments.

(** * Checks on concrete inputs *)

Example vertical_run :
  compress_cell_references (locations [("S1","A1"); ("S1","A2"); ("S1","A3")])
  = Ret ["S1!A1:A3"].
Proof. vm_compute. reflexivity. Qed.

Example horizontal_run :
  compress_cell_references (locations [("S1","A1"); ("S1","B1"); ("S1","C1")])
  = Ret ["S1!A1:C1"].
Proof. vm_compute. reflexivity. Qed.

Example gap_split :
  compress_cell_references (locations [("S1","A1"); ("S1","A3")])
  = Ret ["S1!A1"; "S1!A3"].
Proof. vm_compute. reflexivity. Qed.

Example sheets_split :
  compress_cell_references (locations [("S2","A2"); ("S1","A1")])
  = Ret ["S1!A1"; "S2!A2"].
Proof. vm_compute. reflexivity. Qed.

(** An L-shaped chain of three cells is emitted as one range expression. *)
Example corner_run :
  compress_cell_references (locations [("S","A1"); ("S","A2"); ("S","B2")])
  = Ret ["S!A1:B2"].
Proof. vm_compute. reflexivity. Qed.

Example re_defaults_compile :
  forallb (fun kv => match Re.compile (snd kv) with Ret _ => true | Raise _ => false end)
          default_patterns = true.
Proof. vm_compute. reflexivity. Qed.

Example implied_run :
  implied_locations "S1!A1:A3" = [("S1","A1"); ("S1","A2"); ("S1","A3")].
Proof. vm_compute. reflexivity. Qed.

Example implied_block :
  implied_locations "S!A1:B2" = [("S","A1"); ("S","A2"); ("S","B1"); ("S","B2")].
Proof. vm_compute. reflexivity. Qed.

Example grammar_examples :
  map is_range_expression ["S1!A1"; "S1!A1:C1"; "My Sheet!AB12:AC14"; "S!h"; "A1"; "S!a1"; "S!A1:"]
  = [true; true; true; false; false; false; false].
Proof. vm_compute. reflexivity. Qed.

(** * The range compressor: theorems *)

(** C1 (defect in the code).  Partition preservation fails on a corner: for
    the locations A1, A2, B2 of one sheet the compressor answers one range
    expression whose cells include B1, a location that is not in the input. *)
Theorem C1_corner_run_implies_absent_cell :
  let input := [("S","A1"); ("S","A2"); ("S","B2")] in
  exists out,
    compress_cell_references (locations input) = Ret out /\
    occurrences ("S","B1") (decompress out) = 1%nat /\
    occurrences ("S","B1") input = 0%nat.
Proof.
  exists ["S!A1:B2"]. vm_compute. repeat split.
Qed.

(** C2 (defect in the code).  The range expression emitted for A1, A2, B2
    has ends that differ both in column and in row: it is no axis-aligned
    run. *)
Theorem C2_corner_run_not_axis_aligned :
  compress_cell_references (locations [("S","A1"); ("S","A2"); ("S","B2")])
  = Ret ["S!A1:B2"]
  /\ axis_aligned "S!A1:B2" = false.
Proof.
  vm_compute. split; reflexivity.
Qed.

(** C8 (defect in the code).  Compressing the decompressed output of a
    first compression gives another list of range expressions: the corner
    A1, A2, B2 comes out as the block A1:B2, whose four cells come out as two
    column runs. *)
Theorem C8_recompression_differs :
  compress_cell_references (locations [("S","A1"); ("S","A2"); ("S","B2")])
  = Ret ["S!A1:B2"]
  /\ compress_cell_references (locations (decompress ["S!A1:B2"]))
     = Ret ["S!A1:A2"; "S!B1:B2"].
Proof.
  vm_compute. split; reflexivity.
Qed.

(** * The parsers: theorems on concrete documents *)

(** C4 (defect in the code).  [parse_csv] hands the rows to
    [_process_cells], whose [isinstance] test raises [TypeError]; the
    handler of [parse_csv] turns that into [SpreadsheetParsingError].  A CSV
    file with the single field 1 is answered with no mapping at all. *)
Theorem C4_parse_csv_raises :
  parse_csv Re.py_match Strptime.py_strptime default_compressor [["1"]]
  = Raise SpreadsheetParsingError.
Proof.
  vm_compute. reflexivity.
Qed.

(** C3 (defect in the code).  On a workbook, and on an ODS document, whose
    sheets B and A hold one integer each, [parse_excel] and [parse_ods]
    raise [SpreadsheetParsingError] at the first sheet: no location is
    merged and nothing is compressed. *)
Theorem C3_multi_sheet_documents_raise :
  parse_excel Re.py_match Strptime.py_strptime default_compressor
    [("B", [[Cell (VInt 1) "A1"]]); ("A", [[Cell (VInt 2) "A1"]])]
  = Raise SpreadsheetParsingError
  /\ parse_ods Re.py_match Strptime.py_strptime default_compressor
       [("B", [[VInt 1]]); ("A", [[VInt 2]])]
     = Raise SpreadsheetParsingError.
Proof.
  vm_compute. split; reflexivity.
Qed.

(** * White space: lemmas *)

Lemma lstrip_skip : forall s,
  lstrip s = match skip_space s with Some r => lstrip r | None => s end.
Proof.
  intros [|a t]; [reflexivity|]. cbn [lstrip skip_space].
  destruct (isspace a); [reflexivity|].
  destruct t as [|b u]; [reflexivity|].
  destruct (isspace2 a b); [reflexivity|].
  destruct u as [|c v]; [reflexivity|].
  destruct (isspace3 a b c); reflexivity.
Qed.

Lemma whitespace_only_skip : forall a t,
  whitespace_only (String a t)
  = match skip_space (String a t) with
    | Some r => whitespace_only r
    | None => false
    end.
Proof.
  intros a t. cbn [whitespace_only skip_space].
  destruct (isspace a); [reflexivity|].
  destruct t as [|b u]; [reflexivity|].
  destruct (isspace2 a b); [reflexivity|].
  destruct u as [|c v]; [reflexivity|].
  destruct (isspace3 a b c); reflexivity.
Qed.

Lemma skip_space_shorter : forall s r,
  skip_space s = Some r -> (String.length r < String.length s)%nat.
Proof.
  intros [|a t] r H; [discriminate H|]. cbn [skip_space] in H.
  destruct (isspace a); [injection H as <-; cbn [String.length]; lia|].
  destruct t as [|b u]; [discriminate H|].
  destruct (isspace2 a b); [injection H as <-; cbn [String.length]; lia|].
  destruct u as [|c v]; [discriminate H|].
  destruct (isspace3 a b c); [injection H as <-; cbn [String.length]; lia|].
  discriminate H.
Qed.

(** Induction along [skip_space]. *)
Lemma skip_space_ind : forall P : string -> Prop,
  (forall s, (forall r, skip_space s = Some r -> P r) -> P s) ->
  forall s, P s.
Proof.
  intros P H s.
  assert (G : forall n s, (String.length s <= n)%nat -> P s).
  { induction n as [|n IH]; intros s0 L; apply H; intros r E;
      apply skip_space_shorter in E; [lia | apply IH; lia]. }
  exact (G (String.length s) s (Nat.le_refl _)).
Qed.

Lemma whitespace_only_lstrip : forall s,
  whitespace_only s = String.eqb (lstrip s) "".
Proof.
  apply skip_space_ind. intros s IH. destruct s as [|a t]; [reflexivity|].
  rewrite lstrip_skip, whitespace_only_skip.
  destruct (skip_space (String a t)) as [r|]; [now apply IH | reflexivity].
Qed.

Lemma whitespace_only_of_lstrip : forall s,
  whitespace_only (lstrip s) = whitespace_only s.
Proof.
  apply skip_space_ind. intros s IH. destruct s as [|a t]; [reflexivity|].
  rewrite lstrip_skip, (whitespace_only_skip a t).
  destruct (skip_space (String a t)) as [r|] eqn:E; [now apply IH|].
  now rewrite whitespace_only_skip, E.
Qed.

Lemma rstrip_empty_iff : forall s, rstrip s = "" <-> whitespace_only s = true.
Proof.
  intros [|c s]; [split; reflexivity|].
  cbn [rstrip]. destruct (whitespace_only (String c s)); split;
    try reflexivity; discriminate.
Qed.

(** A text is blank exactly when it is made of white space only. *)
Lemma strip_empty_iff : forall s,
  String.eqb (strip s) "" = true <-> whitespace_only s = true.
Proof.
  intros s. unfold strip. rewrite String.eqb_eq, rstrip_empty_iff.
  now rewrite whitespace_only_of_lstrip.
Qed.

(** The text that [lstrip] leaves starts with no white space. *)
Lemma lstrip_head : forall s, lstrip s = "" \/ skip_space (lstrip s) = None.
Proof.
  apply skip_space_ind. intros s IH. rewrite lstrip_skip.
  destruct (skip_space s) as [r|] eqn:E; [now apply IH | now right].
Qed.

Lemma lstrip_fixed : forall s, skip_space s = None -> lstrip s = s.
Proof. intros s H. now rewrite lstrip_skip, H. Qed.

Lemma skip_space_app : forall p q r,
  skip_space p = Some r -> skip_space (p ++ q) = Some (r ++ q).
Proof.
  intros [|a t] q r H; [discriminate H|]. cbn [skip_space] in H.
  cbn [append skip_space].
  destruct (isspace a); [now injection H as <-|].
  destruct t as [|b u]; [discriminate H|]. cbn [append].
  destruct (isspace2 a b); [now injection H as <-|].
  destruct u as [|c v]; [discriminate H|]. cbn [append].
  destruct (isspace3 a b c); [now injection H as <- | discriminate H].
Qed.

Lemma skip_space_prefix : forall p q,
  skip_space (p ++ q) = None -> skip_space p = None.
Proof.
  intros [|a t] q H; [reflexivity|]. cbn [append skip_space] in H.
  cbn [skip_space].
  destruct (isspace a); [discriminate H|].
  destruct t as [|b u]; [reflexivity|]. cbn [append] in H.
  destruct (isspace2 a b); [discriminate H|].
  destruct u as [|c v]; [reflexivity|]. cbn [append] in H.
  destruct (isspace3 a b c); [discriminate H | reflexivity].
Qed.

Lemma whitespace_only_app : forall p q,
  whitespace_only p = true -> whitespace_only (p ++ q) = whitespace_only q.
Proof.
  intros p q. revert p. apply (skip_space_ind
    (fun p => whitespace_only p = true -> whitespace_only (p ++ q) = whitespace_only q)).
  intros p IH H. destruct p as [|a t]; [reflexivity|].
  rewrite whitespace_only_skip in H.
  destruct (skip_space (String a t)) as [r|] eqn:E; [|discriminate H].
  pose proof (skip_space_app _ q _ E) as Eq.
  change (String a t ++ q) with (String a (t ++ q)) in *.
  rewrite whitespace_only_skip, Eq. now apply IH.
Qed.

(** What [rstrip] cuts off is white space. *)
Lemma rstrip_split : forall s,
  exists q, s = rstrip s ++ q /\ whitespace_only q = true.
Proof.
  induction s as [|c s [q [Hs Hq]]]; [now exists ""|].
  cbn [rstrip]. destruct (whitespace_only (String c s)) eqn:E.
  - now exists (String c s).
  - exists q. split; [|exact Hq]. cbn [append]. now rewrite <- Hs.
Qed.

Lemma rstrip_idempotent : forall s, rstrip (rstrip s) = rstrip s.
Proof.
  induction s as [|c s IH]; [reflexivity|].
  cbn [rstrip]. destruct (whitespace_only (String c s)) eqn:E; [reflexivity|].
  cbn [rstrip]. rewrite IH.
  destruct (whitespace_only (String c (rstrip s))) eqn:E'; [|reflexivity].
  exfalso. destruct (rstrip_split s) as [q [Hs Hq]].
  pose proof (whitespace_only_app (String c (rstrip s)) q E') as A.
  cbn [append] in A. rewrite <- Hs, E, Hq in A. discriminate A.
Qed.

(** [strip] is idempotent. *)
Lemma strip_idempotent : forall s, strip (strip s) = strip s.
Proof.
  intros s. unfold strip.
  assert (L : lstrip (rstrip (lstrip s)) = rstrip (lstrip s)).
  { destruct (lstrip_head s) as [E | E].
    - now rewrite E.
    - apply lstrip_fixed. destruct (rstrip_split (lstrip s)) as [q [Hs _]].
      rewrite Hs in E. exact (skip_space_prefix _ _ E). }
  rewrite L. apply rstrip_idempotent.
Qed.

(** A character of ASCII that is no white space starts no white space. *)
Lemma skip_space_plain : forall c t,
  isspace c = false -> N.ltb (code c) 128 = true -> skip_space (String c t) = None.
Proof.
  intros c t Hs Ha. apply N.ltb_lt in Ha. cbn [skip_space]. rewrite Hs.
  assert (E2 : forall b, isspace2 c b = false).
  { intros b. unfold isspace2. destruct (N.eqb_spec (code c) 194); [lia | reflexivity]. }
  assert (E3 : forall b d, isspace3 c b d = false).
  { intros b d. unfold isspace3.
    destruct (N.eqb_spec (code c) 225); [lia|].
    destruct (N.eqb_spec (code c) 226); [lia|].
    destruct (N.eqb_spec (code c) 227); [lia | reflexivity]. }
  destruct t as [|b u]; [reflexivity|]. rewrite E2.
  destruct u as [|d v]; [reflexivity|]. now rewrite E3.
Qed.

(** [strip] leaves an ASCII text without white space as it is. *)
Lemma strip_fixed : forall s,
  str_forall (fun c => (negb (isspace c) && N.ltb (code c) 128)%bool) s = true ->
  strip s = s.
Proof.
  intros s H. unfold strip.
  assert (R : forall t,
             str_forall (fun c => (negb (isspace c) && N.ltb (code c) 128)%bool) t = true ->
             rstrip t = t).
  { induction t as [|c t IH]; intros Ht; [reflexivity|].
    cbn [str_forall] in Ht. apply andb_prop in Ht. destruct Ht as [Hc Ht].
    apply andb_prop in Hc. destruct Hc as [Hs Ha]. apply negb_true_iff in Hs.
    cbn [rstrip]. rewrite whitespace_only_skip, (skip_space_plain c t Hs Ha).
    now rewrite (IH Ht). }
  destruct s as [|c t]; [reflexivity|].
  pose proof H as H'. cbn [str_forall] in H'. apply andb_prop in H'.
  destruct H' as [Hc _]. apply andb_prop in Hc. destruct Hc as [Hs Ha].
  apply negb_true_iff in Hs.
  rewrite (lstrip_fixed _ (skip_space_plain c t Hs Ha)). now apply R.
Qed.

(** * The classifier: theorems on concrete values *)

(** C7.  The classifier's answers on the default configuration; the last
    clause is for every text made of white space only, whichever of the
    white space characters of [str.strip] it is made of. *)
Theorem C7_classifier_precedence :
  py_recognize_data_type default_compressor (VStr "123") = Ret "[INTEGER]"
  /\ py_recognize_data_type default_compressor (VStr "12.5") = Ret "[FLOAT]"
  /\ py_recognize_data_type default_compressor (VStr "50%") = Ret "[PERCENTAGE]"
  /\ py_recognize_data_type default_compressor (VStr "1999") = Ret "[YEAR]"
  /\ py_recognize_data_type default_compressor (VStr "2024-01-15") = Ret "[DATE]"
  /\ py_recognize_data_type default_compressor (VStr "14:30") = Ret "[TIME]"
  /\ py_recognize_data_type default_compressor VNone = Ret "Empty"
  /\ py_recognize_data_type default_compressor (VStr "") = Ret "Empty"
  /\ py_recognize_data_type default_compressor (VStr "   ") = Ret "Empty"
  /\ forall s : string,
       whitespace_only s = true ->
       py_recognize_data_type default_compressor (VStr s) = Ret "Empty".
Proof.
  repeat (split; [vm_compute; reflexivity|]).
  intros s H. unfold py_recognize_data_type, recognize_data_type. cbn [is_blank].
  now rewrite (proj2 (strip_empty_iff s) H).
Qed.

(** C6, counterexample.  The text apple after a space, which no pattern
    and no format matches, is classified under the constant Others, not
    under its trimmed form; and [_process_cells], handed a grid that holds
    it, raises before it puts any location in any bucket. *)
Lemma C6_counterexample :
  py_recognize_data_type default_compressor (VStr " apple") = Ret "Others"
  /\ "Others" <> strip " apple"
  /\ _process_cells Re.py_match Strptime.py_strptime default_compressor
       (ListOfLists [[VStr " apple"]]) "S" = Raise TypeError.
Proof.
  vm_compute. repeat split. discriminate.
Qed.

(** C9, counterexample.  With a custom pattern that is no regular
    expression, classifying a value that no default pattern matches raises
    [re.error]. *)
Lemma C9_counterexample :
  py_recognize_data_type (init (Some [("broken", "(")]) None None) (VStr "apple")
  = Raise ReError.
Proof.
  vm_compute. reflexivity.
Qed.

(** * Dictionaries: lemmas *)

Section DictFacts.
Variable V : Type.
Implicit Types (d e : dict V) (k : string) (v : V).

Lemma dict_get_set : forall d k k' v,
  dict_get k (dict_set k' v d) = if String.eqb k k' then Some v else dict_get k d.
Proof.
  induction d as [|[k0 v0] d IH]; intros k k' v; simpl.
  - destruct (String.eqb k k'); reflexivity.
  - destruct (String.eqb k' k0) eqn:E; simpl.
    + apply String.eqb_eq in E. subst k0.
      destruct (String.eqb k k'); reflexivity.
    + rewrite IH. destruct (String.eqb k k0) eqn:E0; [|reflexivity].
      apply String.eqb_eq in E0. subst k0.
      rewrite String.eqb_sym, E. reflexivity.
Qed.

Lemma dict_get_none : forall d k, dict_get k d = None <-> ~ In k (dict_keys d).
Proof.
  induction d as [|[k0 v0] d IH]; intros k; simpl.
  - tauto.
  - destruct (String.eqb k k0) eqn:E.
    + apply String.eqb_eq in E. subst. split; [discriminate |].
      intros H. exfalso. apply H. now left.
    + apply String.eqb_neq in E. rewrite IH. split; intros H.
      * intros [H1 | H1]; [congruence | tauto].
      * tauto.
Qed.

Lemma dict_get_some_in : forall d k v, dict_get k d = Some v -> In k (dict_keys d).
Proof.
  intros d k v H. destruct (in_dec string_dec k (dict_keys d)) as [|N]; [assumption|].
  apply dict_get_none in N. congruence.
Qed.

Lemma dict_get_in : forall d k v, dict_get k d = Some v -> In (k, v) d.
Proof.
  induction d as [|[k0 v0] d IH]; intros k v; simpl; [discriminate|].
  destruct (String.eqb k k0) eqn:E.
  - apply String.eqb_eq in E. intros [= ->]. subst. now left.
  - intros H. right. now apply IH.
Qed.

Lemma existsb_eqb_in : forall k (l : list string),
  existsb (String.eqb k) l = true <-> In k l.
Proof.
  intros k l. rewrite existsb_exists. split.
  - intros [x [Hx E]]. apply String.eqb_eq in E. now subst.
  - intros H. exists k. split; [assumption | apply String.eqb_refl].
Qed.

(** [d[k] = v] on a key that is present keeps the keys and their order. *)
Lemma dict_keys_set_in : forall d k v,
  In k (dict_keys d) -> dict_keys (dict_set k v d) = dict_keys d.
Proof.
  induction d as [|[k0 v0] d IH]; intros k v H; simpl in *; [tauto|].
  destruct (String.eqb k k0) eqn:E; simpl; [reflexivity|].
  apply String.eqb_neq in E. f_equal. apply IH.
  destruct H as [H | H]; [congruence | assumption].
Qed.

(** [d[k] = v] on a new key appends the item. *)
Lemma dict_set_new : forall d k v,
  ~ In k (dict_keys d) -> dict_set k v d = (d ++ [(k, v)])%list.
Proof.
  induction d as [|[k0 v0] d IH]; intros k v H; simpl in *; [reflexivity|].
  destruct (String.eqb k k0) eqn:E.
  - apply String.eqb_eq in E. subst. exfalso. apply H. now left.
  - f_equal. apply IH. tauto.
Qed.

Lemma dict_set_nodup : forall d k v,
  NoDup (dict_keys d) -> NoDup (dict_keys (dict_set k v d)).
Proof.
  intros d k v H. destruct (in_dec string_dec k (dict_keys d)) as [I | N].
  - now rewrite dict_keys_set_in.
  - rewrite dict_set_new by assumption. unfold dict_keys. rewrite map_app. simpl.
    apply NoDup_app; [assumption | repeat constructor; simpl; tauto |].
    intros x Hx [<- | []]. tauto.
Qed.

Lemma override_skip : forall d e k v,
  ~ In k (dict_keys d) -> map (override ((k, v) :: e)) d = map (override e) d.
Proof.
  intros d e k v H. apply map_ext_in. intros [k0 v0] Hin. unfold override. simpl.
  destruct (String.eqb k0 k) eqn:E; [|reflexivity].
  apply String.eqb_eq in E. subst. exfalso. apply H.
  unfold dict_keys. change k with (fst (k, v0)). now apply in_map.
Qed.

Lemma override_set : forall d e k v,
  NoDup (dict_keys d) -> In k (dict_keys d) -> ~ In k (dict_keys e) ->
  map (override e) (dict_set k v d) = map (override ((k, v) :: e)) d.
Proof.
  induction d as [|[k0 v0] d IH]; intros e k v ND I N; simpl in *; [tauto|].
  inversion ND as [|? ? N0 ND0]; subst.
  destruct (String.eqb k k0) eqn:E.
  - apply String.eqb_eq in E. subst k0. simpl. f_equal.
    + unfold override. simpl. rewrite String.eqb_refl.
      apply dict_get_none in N. now rewrite N.
    + symmetry. now apply override_skip.
  - pose proof E as E'. apply String.eqb_neq in E'. simpl. f_equal.
    + unfold override. simpl. now rewrite String.eqb_sym, E.
    + apply IH; try assumption. destruct I as [I | I]; [congruence | assumption].
Qed.

(** [{**d, **e}]: the items of [d] in their order, each with the value
    [e] gives its key if it gives one, followed by the items of [e] whose
    keys are new, in their order. *)
Lemma dict_merge_spec : forall e d,
  NoDup (dict_keys d) -> NoDup (dict_keys e) ->
  dict_merge d e = (map (override e) d ++ filter (is_new d) e)%list.
Proof.
  unfold dict_merge.
  induction e as [|[k v] e IH]; intros d NDd NDe; simpl.
  - rewrite app_nil_r. symmetry. rewrite <- (map_id d) at 2.
    apply map_ext. intros [k v]. reflexivity.
  - simpl in NDe. inversion NDe as [|? ? N NDe']; subst.
    rewrite IH by (try apply dict_set_nodup; assumption).
    unfold is_new at 2. simpl.
    destruct (in_dec string_dec k (dict_keys d)) as [I | NI].
    + rewrite override_set by assumption.
      assert (Ek : existsb (String.eqb k) (dict_keys d) = true)
        by now apply existsb_eqb_in.
      rewrite Ek. simpl. f_equal.
      apply filter_ext. intros kv. unfold is_new.
      now rewrite dict_keys_set_in.
    + assert (Ek : existsb (String.eqb k) (dict_keys d) = false).
      { destruct (existsb (String.eqb k) (dict_keys d)) eqn:X; [|reflexivity].
        apply existsb_eqb_in in X. tauto. }
      rewrite Ek. simpl.
      rewrite dict_set_new by assumption.
      rewrite map_app, override_skip by assumption. simpl.
      rewrite <- app_assoc. simpl. f_equal. f_equal.
      * unfold override. simpl. apply dict_get_none in N. now rewrite N.
      * apply filter_ext_in. intros [k1 v1] Hin. unfold is_new, dict_keys.
        rewrite map_app, existsb_app. simpl.
        destruct (String.eqb k1 k) eqn:E; [|now rewrite !orb_false_r].
        apply String.eqb_eq in E. subst. exfalso. apply N.
        unfold dict_keys. change k with (fst (k, v1)). now apply in_map.
Qed.
End DictFacts.

(** * The pattern table *)

Lemma default_patterns_nodup : NoDup (dict_keys default_patterns).
Proof.
  unfold default_patterns, dict_keys. simpl.
  repeat (constructor; [simpl; intuition discriminate|]). constructor.
Qed.

Lemma or_default_nil : forall (A : Type) (l : list A), or_default (Some l) [] = l.
Proof. intros A [|x l]; reflexivity. Qed.

Lemma keys_filter_is_new : forall (V : Type) (d e : dict V),
  dict_keys (filter (is_new d) e)
  = filter (fun k => negb (existsb (String.eqb k) (dict_keys d))) (dict_keys e).
Proof.
  intros V d e. induction e as [|[k v] e IH]; simpl; [reflexivity|].
  unfold is_new at 1. simpl.
  destruct (negb (existsb (String.eqb k) (dict_keys d))); simpl; now rewrite IH.
Qed.

(** C10.  A custom pattern named like a default takes the default's place
    in the iteration order (url, year, integer, percentage, scientific,
    float, currency, email); the custom patterns with new names follow the
    defaults, in their own order. *)
Theorem C10_override_keeps_default_slot :
  forall (custom_patterns : dict string) (dates times : option (list string)),
    NoDup (dict_keys custom_patterns) ->
    _patterns (init (Some custom_patterns) dates times)
    = (map (override custom_patterns) default_patterns
       ++ filter (is_new default_patterns) custom_patterns)%list
    /\ dict_keys (_patterns (init (Some custom_patterns) dates times))
       = (["url"; "year"; "integer"; "percentage"; "scientific"; "float";
           "currency"; "email"]
          ++ filter (fun k => negb (existsb (String.eqb k) (dict_keys default_patterns)))
                    (dict_keys custom_patterns))%list.
Proof.
  intros custom dates times ND.
  assert (E : _patterns (init (Some custom) dates times)
              = (map (override custom) default_patterns
                 ++ filter (is_new default_patterns) custom)%list).
  { unfold init. cbn [_patterns]. rewrite or_default_nil.
    apply dict_merge_spec; [apply default_patterns_nodup | assumption]. }
  split; [exact E|].
  rewrite E. unfold dict_keys at 1. rewrite map_app.
  fold (dict_keys (filter (is_new default_patterns) custom)).
  rewrite keys_filter_is_new. f_equal.
Qed.

Lemma C10_witness :
  NoDup (dict_keys [("integer", "^x$"); ("zip", "^[0-9]{5}$")])
  /\ _patterns (init (Some [("integer", "^x$"); ("zip", "^[0-9]{5}$")]) None None)
     = (map (override [("integer", "^x$"); ("zip", "^[0-9]{5}$")]) default_patterns
        ++ filter (is_new default_patterns) [("integer", "^x$"); ("zip", "^[0-9]{5}$")])%list.
Proof.
  assert (ND : NoDup (dict_keys [("integer", "^x$"); ("zip", "^[0-9]{5}$")])).
  { unfold dict_keys. simpl.
    repeat (constructor; [simpl; intuition discriminate|]). constructor. }
  split; [exact ND|].
  exact (proj1 (@C10_override_keeps_default_slot _ None None ND)).
Defined.

(** * The compressor's failure policy *)

Lemma compress_fallback_locations : forall refs,
  compress_fallback (locations refs)
  = Ret (map (fun p => fst p ++ "!" ++ snd p) refs).
Proof.
  unfold compress_fallback, locations.
  induction refs as [|[sheet cell] refs IH]; [reflexivity|].
  cbn [map mapM getitem bind fst snd]. rewrite IH. reflexivity.
Qed.

(** C5.  On a list of (sheet, cell) pairs the compressor returns and never
    raises; when the body of its [try] block raises, whatever the error, it
    returns one Sheet!Cell expression per input location, in input order. *)
Theorem C5_compressor_failure_policy :
  forall refs : list (string * string),
    (exists out, compress_cell_references (locations refs) = Ret out)
    /\ (forall e, compress_try (locations refs) = Raise e ->
        compress_cell_references (locations refs)
        = Ret (map (fun p => fst p ++ "!" ++ snd p) refs)).
Proof.
  intros refs.
  pose proof (compress_fallback_locations refs) as F.
  destruct refs as [|p refs].
  - split; [exists []; reflexivity | intros e H; reflexivity].
  - unfold compress_cell_references.
    remember (locations (p :: refs)) as l eqn:El.
    destruct l as [|x l]; [discriminate El|].
    destruct (compress_try (x :: l)) as [out | e'] eqn:E.
    + split; [now exists out | intros e H; discriminate H].
    + split; [rewrite F; eauto | intros e H; exact F].
Qed.

Lemma C5_witness :
  compress_try (locations [("S","A1"); ("S","7")]) = Raise ValueError
  /\ compress_cell_references (locations [("S","A1"); ("S","7")])
     = Ret (map (fun p => fst p ++ "!" ++ snd p) [("S","A1"); ("S","7")]).
Proof.
  assert (H : compress_try (locations [("S","A1"); ("S","7")]) = Raise ValueError)
    by (vm_compute; reflexivity).
  split; [exact H|].
  exact (proj2 (C5_compressor_failure_policy [("S","A1"); ("S","7")]) ValueError H).
Defined.

(** * The classifier: general theorems *)

Lemma match_patterns_returns : forall re_match items value_str,
  (forall name pattern, In (name, pattern) items ->
     exists b, re_match pattern value_str = Ret b) ->
  exists hit, match_patterns re_match items value_str = Ret hit.
Proof.
  intros re_match items value_str.
  induction items as [|[name pattern] items IH]; intros H; simpl.
  - now exists None.
  - destruct (H name pattern (or_introl eq_refl)) as [b Hb]. rewrite Hb. simpl.
    destruct b; [eauto|]. apply IH. intros n p Hin. apply (H n p). now right.
Qed.

Lemma try_formats_returns : forall strptime formats value_str,
  (forall format, In format formats ->
     strptime value_str format = Ret tt \/ strptime value_str format = Raise ValueError) ->
  exists b, try_formats strptime formats value_str = Ret b.
Proof.
  intros strptime formats value_str.
  induction formats as [|format formats IH]; intros H; simpl.
  - now exists false.
  - destruct (H format (or_introl eq_refl)) as [Hf | Hf]; rewrite Hf.
    + now exists true.
    + apply IH. intros f Hin. apply H. now right.
Qed.

(** C9, as amended.  Classification returns a category and does not raise,
    for every value that [str] converts (an integer of at most 4300 digits,
    any other value) and every configuration on which [re.match] raises for
    no pattern of the table and [strptime] raises nothing but [ValueError]
    for the date and time formats. *)
Theorem C9_classification_returns :
  forall (re_match : string -> string -> outcome bool)
         (strptime : string -> string -> outcome unit)
         (self : compressor) (v : value),
    str_limit_ok v = true ->
    (forall name pattern, In (name, pattern) (_patterns self) ->
       exists b, re_match pattern (strip (str_of_value v)) = Ret b) ->
    (forall format, In format (_date_patterns self ++ _time_patterns self)%list ->
       strptime (strip (str_of_value v)) format = Ret tt
       \/ strptime (strip (str_of_value v)) format = Raise ValueError) ->
    exists category, recognize_data_type re_match strptime self v = Ret category.
Proof.
  intros re_match strptime self v _ Hre Hfmt. unfold recognize_data_type.
  destruct (is_blank v); [eauto|].
  destruct (match_patterns_returns re_match (_patterns self) _ Hre) as [hit Hhit].
  rewrite Hhit. simpl. destruct hit as [category|]; [eauto|].
  destruct (try_formats_returns strptime (_date_patterns self) (strip (str_of_value v)))
    as [d Hd].
  { intros f Hin. apply Hfmt. apply in_or_app. now left. }
  rewrite Hd. simpl. destruct d; [eauto|].
  destruct (try_formats_returns strptime (_time_patterns self) (strip (str_of_value v)))
    as [t Ht].
  { intros f Hin. apply Hfmt. apply in_or_app. now right. }
  rewrite Ht. simpl. destruct t; eauto.
Qed.

Lemma py_match_returns : forall pattern r s,
  Re.compile pattern = Ret r -> exists b, Re.py_match pattern s = Ret b.
Proof.
  intros pattern r s H. unfold Re.py_match. rewrite H. simpl. eauto.
Qed.

Lemma py_strptime_value_error : forall format ts s,
  Strptime.compile format = Ret ts ->
  Strptime.py_strptime s format = Ret tt \/ Strptime.py_strptime s format = Raise ValueError.
Proof.
  intros format ts s H. unfold Strptime.py_strptime. rewrite H. simpl.
  destruct (Strptime.run ts s) as [[fs remaining]|]; [|now right].
  destruct (negb (String.eqb remaining "")); [now right|].
  destruct (Strptime.exists_ _); [now left | now right].
Qed.

Lemma default_patterns_compile : forall name pattern s,
  In (name, pattern) (_patterns default_compressor) ->
  exists b, Re.py_match pattern s = Ret b.
Proof.
  intros name pattern s H. simpl in H.
  repeat (destruct H as [H | H];
          [ injection H as _ <-;
            match goal with
            | |- exists b, Re.py_match ?p _ = _ =>
                destruct (Re.compile p) as [r | e] eqn:E;
                [ exact (@py_match_returns _ _ s E)
                | exfalso; vm_compute in E; discriminate E ]
            end
          | ]).
  contradiction.
Qed.

Lemma default_formats_compile : forall format s,
  In format (_date_patterns default_compressor ++ _time_patterns default_compressor)%list ->
  Strptime.py_strptime s format = Ret tt \/ Strptime.py_strptime s format = Raise ValueError.
Proof.
  intros format s H. simpl in H.
  repeat (destruct H as [H | H];
          [ subst format;
            match goal with
            | |- Strptime.py_strptime _ ?f = _ \/ _ =>
                destruct (Strptime.compile f) as [ts | e] eqn:E;
                [ exact (@py_strptime_value_error _ _ s E)
                | exfalso; vm_compute in E; discriminate E ]
            end
          | ]).
  contradiction.
Qed.

Lemma C9_witness :
  str_limit_ok (VStr "apple") = true
  /\ (forall name pattern, In (name, pattern) (_patterns default_compressor) ->
        exists b, Re.py_match pattern (strip (str_of_value (VStr "apple"))) = Ret b)
  /\ (forall format,
        In format (_date_patterns default_compressor
                   ++ _time_patterns default_compressor)%list ->
        Strptime.py_strptime (strip (str_of_value (VStr "apple"))) format = Ret tt
        \/ Strptime.py_strptime (strip (str_of_value (VStr "apple"))) format
           = Raise ValueError)
  /\ exists category,
       recognize_data_type Re.py_match Strptime.py_strptime default_compressor
         (VStr "apple") = Ret category.
Proof.
  assert (H0 : str_limit_ok (VStr "apple") = true) by reflexivity.
  assert (H1 : forall name pattern, In (name, pattern) (_patterns default_compressor) ->
     exists b, Re.py_match pattern (strip (str_of_value (VStr "apple"))) = Ret b)
    by (intros name pattern; apply default_patterns_compile).
  assert (H2 : forall format,
        In format (_date_patterns default_compressor
                   ++ _time_patterns default_compressor)%list ->
        Strptime.py_strptime (strip (str_of_value (VStr "apple"))) format = Ret tt
        \/ Strptime.py_strptime (strip (str_of_value (VStr "apple"))) format
           = Raise ValueError)
    by (intros format; apply default_formats_compile).
  split; [exact H0|]. split; [exact H1|]. split; [exact H2|].
  exact (C9_classification_returns Re.py_match Strptime.py_strptime
           default_compressor (VStr "apple") H0 H1 H2).
Defined.

Lemma match_patterns_none : forall (re_match : string -> string -> outcome bool)
    (items : dict string) (value_str : string),
  (forall n p, In (n, p) items -> re_match p value_str = Ret false) ->
  match_patterns re_match items value_str = Ret None.
Proof.
  intros re_match items value_str.
  induction items as [|[n p] items IH]; intros H; cbn [match_patterns]; [reflexivity|].
  rewrite (H n p (or_introl eq_refl)). cbn [bind].
  apply IH. intros n' p' Hin. apply (H n' p'). now right.
Qed.

Lemma try_formats_none : forall (strptime : string -> string -> outcome unit)
    (formats : list string) (value_str : string),
  (forall f, In f formats -> strptime value_str f = Raise ValueError) ->
  try_formats strptime formats value_str = Ret false.
Proof.
  intros strptime formats value_str.
  induction formats as [|f formats IH]; intros H; cbn [try_formats]; [reflexivity|].
  rewrite (H f (or_introl eq_refl)). apply IH. intros f' Hin. apply H. now right.
Qed.

(** C6, as amended.  A value that is not blank, that [str] converts, and
    that no regular expression of the table, no date format and no time
    format matches is classified under the constant Others, whatever its
    text is. *)
Theorem C6_unmatched_value_is_others :
  forall (re_match : string -> string -> outcome bool)
         (strptime : string -> string -> outcome unit)
         (self : compressor) (v : value),
    is_blank v = false ->
    str_limit_ok v = true ->
    (forall name pattern, In (name, pattern) (_patterns self) ->
       re_match pattern (strip (str_of_value v)) = Ret false) ->
    (forall format, In format (_date_patterns self ++ _time_patterns self)%list ->
       strptime (strip (str_of_value v)) format = Raise ValueError) ->
    recognize_data_type re_match strptime self v = Ret "Others".
Proof.
  intros re_match strptime self v Hb _ Hp Hf. unfold recognize_data_type.
  rewrite Hb, (match_patterns_none re_match _ _ Hp). cbn [bind].
  rewrite (try_formats_none strptime (_date_patterns self) _
             (fun f Hin => Hf f (in_or_app _ _ f (or_introl Hin)))).
  cbn [bind].
  rewrite (try_formats_none strptime (_time_patterns self) _
             (fun f Hin => Hf f (in_or_app _ _ f (or_intror Hin)))).
  reflexivity.
Qed.

Lemma C6_witness :
  is_blank (VStr " apple") = false
  /\ str_limit_ok (VStr " apple") = true
  /\ recognize_data_type Re.py_match Strptime.py_strptime default_compressor
       (VStr " apple") = Ret "Others".
Proof.
  assert (Hb : is_blank (VStr " apple") = false) by (vm_compute; reflexivity).
  assert (Hl : str_limit_ok (VStr " apple") = true) by reflexivity.
  split; [exact Hb|]. split; [exact Hl|].
  apply (C6_unmatched_value_is_others Re.py_match Strptime.py_strptime
           default_compressor (VStr " apple") Hb Hl).
  - intros name pattern H. cbn in H.
    repeat (destruct H as [H | H]; [injection H as _ <-; vm_compute; reflexivity|]).
    contradiction.
  - intros format H. cbn in H.
    repeat (destruct H as [H | H]; [subst format; vm_compute; reflexivity|]).
    contradiction.
Defined.

(** * The error monad: lemmas *)

Lemma bind_ret : forall (A B : Type) (c : outcome A) (k : A -> outcome B) (b : B),
  bind c k = Ret b -> exists a, c = Ret a /\ k a = Ret b.
Proof.
  intros A B [a | e] k b H; simpl in H; [eauto | discriminate H].
Qed.

(** * When the body of the compressor's [try] block raises *)

Lemma column_index_raises_value_error : forall str_col e,
  column_index_from_string str_col = Raise e -> e = ValueError.
Proof.
  intros str_col e H. unfold column_index_from_string in H.
  destruct (_ && _ && _)%bool; [discriminate H | now injection H].
Qed.

Lemma sort_key_location : forall sheet cell,
  sort_key (Loc sheet cell)
  = (col <- column_index_from_string (fst (_cell_to_tuple cell)) ;;
     Ret (sheet, col, snd (_cell_to_tuple cell))).
Proof. reflexivity. Qed.

Lemma locations_cons : forall sheet cell refs,
  locations ((sheet, cell) :: refs) = Loc sheet cell :: locations refs.
Proof. reflexivity. Qed.

Lemma keyed_locations_raise : forall refs e,
  mapM (fun x => k <- sort_key x ;; Ret (k, x)) (locations refs) = Raise e ->
  e = ValueError /\ exists p, In p refs /\ column_ok (snd p) = false.
Proof.
  induction refs as [|[sheet cell] refs IH]; intros e H; [discriminate H|].
  rewrite locations_cons in H. cbn [mapM] in H.
  rewrite sort_key_location in H.
  destruct (column_index_from_string (fst (_cell_to_tuple cell))) as [col | e0] eqn:E.
  - cbn [bind] in H.
    destruct (mapM (fun x => k <- sort_key x ;; Ret (k, x)) (locations refs))
      as [ys | e1]; [discriminate H|].
    cbn [bind] in H. injection H as <-.
    destruct (IH e1 eq_refl) as [He [p [Hp Hc]]].
    split; [exact He|]. exists p. split; [now right | exact Hc].
  - cbn [bind] in H. injection H as <-. split.
    + exact (column_index_raises_value_error _ _ E).
    + exists (sheet, cell). split; [now left|]. unfold column_ok. cbn [snd]. now rewrite E.
Qed.

Lemma keyed_locations_ok : forall refs keyed,
  mapM (fun x => k <- sort_key x ;; Ret (k, x)) (locations refs) = Ret keyed ->
  Forall (fun kx => reference_ok (snd kx) = true) keyed.
Proof.
  induction refs as [|[sheet cell] refs IH]; intros keyed H.
  - injection H as <-. constructor.
  - rewrite locations_cons in H. cbn [mapM] in H.
    rewrite sort_key_location in H.
    destruct (column_index_from_string (fst (_cell_to_tuple cell))) as [col | e0] eqn:E;
      [|discriminate H].
    cbn [bind] in H.
    destruct (mapM (fun x => k <- sort_key x ;; Ret (k, x)) (locations refs))
      as [ys | e1]; [|discriminate H].
    cbn [bind] in H. injection H as <-. constructor.
    + cbn [snd reference_ok]. unfold column_ok. now rewrite E.
    + now apply IH.
Qed.

Lemma insert_keyed_forall : forall (A K : Type) (lt : K -> K -> bool) (P : K * A -> Prop)
    (x : K * A) (l : list (K * A)),
  P x -> Forall P l -> Forall P (insert_keyed lt x l).
Proof.
  intros A K lt P x l Hx Hl. induction Hl as [|y l Hy Hl IH]; simpl.
  - constructor; [exact Hx | constructor].
  - destruct (lt (fst y) (fst x)); constructor; auto.
Qed.

Lemma sort_keyed_forall : forall (A K : Type) (lt : K -> K -> bool) (P : K * A -> Prop)
    (l : list (K * A)),
  Forall P l -> Forall P (sort_keyed lt l).
Proof.
  intros A K lt P l Hl. unfold sort_keyed.
  induction Hl as [|x l Hx Hl IH]; simpl; [constructor|].
  now apply insert_keyed_forall.
Qed.

(** A round of the scan on a location whose column is a column name, from
    a state whose end cell is one too, returns such a state. *)
Lemma scan_step_ok : forall st sheet cell,
  column_ok (current_range_end_cell st) = true ->
  column_ok cell = true ->
  exists st', scan_step st (Loc sheet cell) = Ret st'
              /\ column_ok (current_range_end_cell st') = true.
Proof.
  intros st sheet cell Hend Hcell. unfold scan_step. cbn [unpack2 bind].
  unfold column_ok in Hend, Hcell.
  destruct (_cell_to_tuple (current_range_end_cell st)) as [end_col end_row] eqn:Ee.
  destruct (_cell_to_tuple cell) as [current_col current_row] eqn:Ec.
  simpl fst in Hend, Hcell.
  assert (Hx : column_ok cell = true) by (unfold column_ok; now rewrite Ec).
  destruct (String.eqb sheet (current_range_start_sheet st)); [|eexists; split; [reflexivity | exact Hx]].
  destruct (String.eqb current_col end_col && (current_row =? end_row + 1))%bool;
    [eexists; split; [reflexivity | exact Hx]|].
  destruct (current_row =? end_row); [|eexists; split; [reflexivity | exact Hx]].
  destruct (column_index_from_string current_col) as [ci|]; [|discriminate Hcell].
  destruct (column_index_from_string end_col) as [ce|]; [|discriminate Hend].
  cbn [bind].
  destruct (ci =? ce + 1); eexists; split; try reflexivity; exact Hx.
Qed.

Lemma scan_ok : forall rest st,
  Forall (fun x => reference_ok x = true) rest ->
  column_ok (current_range_end_cell st) = true ->
  exists st', foldM scan_step rest st = Ret st'.
Proof.
  induction rest as [|x rest IH]; intros st Hrest Hst; simpl.
  - eauto.
  - inversion Hrest as [|? ? Hx Hrest']; subst.
    destruct x as [sheet cell|s]; [|discriminate Hx].
    destruct (scan_step_ok st sheet cell Hst Hx) as [st1 [H1 H2]].
    rewrite H1. cbn [bind]. now apply IH.
Qed.

(** On (sheet, cell) pairs the body of the [try] block raises nothing but
    the [ValueError] of [column_index_from_string], and raises it only when
    the letters of some cell reference are not a column name: none, or more
    than three. *)
Lemma compress_try_raises_on_bad_column : forall refs e,
  compress_try (locations refs) = Raise e ->
  e = ValueError /\ exists p, In p refs /\ column_ok (snd p) = false.
Proof.
  intros refs e H. unfold compress_try, sorted_refs_of in H.
  destruct (mapM (fun x => k <- sort_key x ;; Ret (k, x)) (locations refs))
    as [keyed | e0] eqn:E.
  - exfalso. cbn [bind] in H.
    pose proof (sort_keyed_forall _ _ key_lt _ _ (keyed_locations_ok _ _ E)) as Hs.
    destruct (sort_keyed key_lt keyed) as [|[k first] sorted]; [discriminate H|].
    cbn [map snd] in H. inversion Hs as [|? ? Hfirst Hrest]; subst.
    simpl in Hfirst. destruct first as [sheet cell|s]; [|discriminate Hfirst].
    cbn [unpack2 bind] in H.
    destruct (scan_ok (map snd sorted) (Scan [] sheet cell sheet cell)) as [st Hst].
    + apply Forall_map. exact Hrest.
    + exact Hfirst.
    + rewrite Hst in H. discriminate H.
  - cbn [bind] in H. injection H as <-. exact (keyed_locations_raise _ _ E).
Qed.

(** * The compressor on locations: the main path as a function *)

Lemma column_ok_index : forall cell,
  column_ok cell = true ->
  column_index_from_string (fst (_cell_to_tuple cell))
  = Ret (column_number (fst (_cell_to_tuple cell))).
Proof.
  intros cell H. unfold column_ok in H. unfold column_number.
  destruct (column_index_from_string (fst (_cell_to_tuple cell)));
    [reflexivity | discriminate H].
Qed.

Lemma sort_key_ok : forall sheet cell,
  column_ok cell = true -> sort_key (Loc sheet cell) = Ret (key_of (sheet, cell)).
Proof.
  intros sheet cell H. rewrite sort_key_location, (column_ok_index cell H). reflexivity.
Qed.

Lemma keyed_locations : forall refs,
  forallb (fun p => column_ok (snd p)) refs = true ->
  mapM (fun x => k <- sort_key x ;; Ret (k, x)) (locations refs)
  = Ret (map (fun p => (key_of p, Loc (fst p) (snd p))) refs).
Proof.
  induction refs as [|[sheet cell] refs IH]; intros H; [reflexivity|].
  cbn [forallb snd] in H. apply andb_prop in H. destruct H as [Hc Hr].
  rewrite locations_cons. cbn [mapM]. rewrite (sort_key_ok sheet cell Hc).
  cbn [bind]. rewrite (IH Hr). reflexivity.
Qed.

Lemma keyed_locations_bad : forall refs,
  forallb (fun p => column_ok (snd p)) refs = false ->
  mapM (fun x => k <- sort_key x ;; Ret (k, x)) (locations refs) = Raise ValueError.
Proof.
  induction refs as [|[sheet cell] refs IH]; intros H; [discriminate H|].
  cbn [forallb snd] in H. rewrite locations_cons. cbn [mapM].
  destruct (column_ok cell) eqn:Hc.
  - rewrite (sort_key_ok sheet cell Hc). cbn [bind]. rewrite (IH H). reflexivity.
  - rewrite sort_key_location. unfold column_ok in Hc.
    destruct (column_index_from_string (fst (_cell_to_tuple cell))) as [n|e] eqn:E;
      [discriminate Hc|].
    rewrite (column_index_raises_value_error _ _ E). reflexivity.
Qed.

Lemma insert_keyed_payload : forall (A B K : Type) (lt : K -> K -> bool) (f : A -> B)
    (x : K * A) (l : list (K * A)),
  insert_keyed lt (fst x, f (snd x)) (map (fun kx => (fst kx, f (snd kx))) l)
  = map (fun kx => (fst kx, f (snd kx))) (insert_keyed lt x l).
Proof.
  intros A B K lt f x l. induction l as [|y l IH]; [reflexivity|].
  cbn [map insert_keyed fst]. destruct (lt (fst y) (fst x)).
  - cbn [map]. now rewrite IH.
  - reflexivity.
Qed.

Lemma sort_keyed_payload : forall (A B K : Type) (lt : K -> K -> bool) (f : A -> B)
    (l : list (K * A)),
  sort_keyed lt (map (fun kx => (fst kx, f (snd kx))) l)
  = map (fun kx => (fst kx, f (snd kx))) (sort_keyed lt l).
Proof.
  intros A B K lt f l. unfold sort_keyed. induction l as [|x l IH]; [reflexivity|].
  cbn [map fold_right]. rewrite IH. apply insert_keyed_payload.
Qed.

(** [sorted] on locations whose column letters are column names. *)
Lemma sorted_refs_of_locations : forall refs,
  forallb (fun p => column_ok (snd p)) refs = true ->
  sorted_refs_of (locations refs) = Ret (locations (sorted_locations refs)).
Proof.
  intros refs H. unfold sorted_refs_of. rewrite (keyed_locations refs H). cbn [bind].
  f_equal. unfold sorted_locations, locations.
  pose (f := fun p : string * string => Loc (fst p) (snd p)).
  change (map (fun p => (key_of p, Loc (fst p) (snd p))) refs)
    with (map (fun p => (key_of p, f p)) refs).
  rewrite <- (map_map (fun p => (key_of p, p))
                      (fun kx : (string * Z * Z) * (string * string) =>
                         (fst kx, f (snd kx)))).
  rewrite (sort_keyed_payload _ _ _ key_lt f). rewrite !map_map. reflexivity.
Qed.

(** One round of the scan on a location, when the column letters of the
    open run's end cell and of the location are column names. *)
Lemma scan_step_location : forall st sheet cell,
  column_ok (current_range_end_cell st) = true ->
  column_ok cell = true ->
  scan_step st (Loc sheet cell)
  = Ret (if (String.eqb sheet (current_range_start_sheet st)
             && steps_to (current_range_end_cell st) cell)%bool
         then extend_range st cell
         else flush_range st sheet cell).
Proof.
  intros st sheet cell Hend Hcell.
  pose proof (column_ok_index _ Hend) as Ie. pose proof (column_ok_index _ Hcell) as Ic.
  unfold scan_step, steps_to. cbn [unpack2 bind].
  destruct (_cell_to_tuple (current_range_end_cell st)) as [end_col end_row].
  destruct (_cell_to_tuple cell) as [current_col current_row].
  cbn [fst] in Ie, Ic.
  destruct (String.eqb sheet (current_range_start_sheet st)); [|reflexivity].
  cbn [andb].
  destruct (String.eqb current_col end_col && (current_row =? end_row + 1))%bool;
    [reflexivity|].
  cbn [orb].
  destruct (current_row =? end_row); [|reflexivity].
  rewrite Ic, Ie. cbn [bind andb].
  destruct (column_number current_col =? column_number end_col + 1); reflexivity.
Qed.

Lemma last_snoc : forall (A : Type) (l : list A) (x d : A), last (l ++ [x]) d = x.
Proof.
  intros A l x d. induction l as [|y l IH]; [reflexivity|].
  cbn [app]. destruct (l ++ [x])%list eqn:E.
  - destruct l; discriminate E.
  - cbn [last]. exact IH.
Qed.

(** The scan loop against [segment]. *)
Lemma scan_segment : forall l st first last_ acc,
  forallb (fun p => column_ok (snd p)) l = true ->
  column_ok (snd last_) = true ->
  current_range_start_sheet st = fst first ->
  current_range_start_cell st = snd first ->
  current_range_end_cell st = snd last_ ->
  last (rev acc) first = last_ ->
  exists st',
    foldM scan_step (locations l) st = Ret st'
    /\ (ranges st'
        ++ [_format_range (current_range_start_sheet st')
                          (current_range_start_cell st')
                          (current_range_end_cell st')])%list
       = (ranges st ++ map render_run (segment l first last_ acc))%list.
Proof.
  induction l as [|[sheet cell] l IH]; intros st first last_ acc Hl Hlast Hs Hc He Hacc.
  - exists st. split; [reflexivity|]. cbn [segment map].
    unfold render_run, run_last. cbn [fst snd]. now rewrite Hs, Hc, He, Hacc.
  - cbn [forallb snd] in Hl. apply andb_prop in Hl. destruct Hl as [Hcell Hl].
    rewrite locations_cons. cbn [foldM].
    rewrite scan_step_location by (try rewrite He; assumption).
    cbn [bind segment]. unfold continues. cbn [fst snd]. rewrite Hs, He.
    destruct (String.eqb sheet (fst first) && steps_to (snd last_) cell)%bool.
    + destruct (IH (extend_range st cell) first (sheet, cell) ((sheet, cell) :: acc))
        as [st' [H1 H2]]; try assumption; try reflexivity.
      * cbn [rev]. apply last_snoc.
      * exists st'. split; [exact H1 | exact H2].
    + destruct (IH (flush_range st sheet cell) (sheet, cell) (sheet, cell) [])
        as [st' [H1 H2]]; try assumption; try reflexivity.
      exists st'. split; [exact H1|]. rewrite H2. cbn [flush_range ranges map].
      rewrite <- app_assoc. cbn [app]. do 2 f_equal.
      unfold render_run, run_last. cbn [fst snd]. now rewrite Hs, Hc, He, Hacc.
Qed.

(** ** The order [sorted] puts the locations in *)

Lemma insert_keyed_perm : forall (A K : Type) (lt : K -> K -> bool) (x : K * A)
    (l : list (K * A)),
  Permutation (insert_keyed lt x l) (x :: l).
Proof.
  intros A K lt x l. induction l as [|y l IH]; [apply Permutation_refl|].
  cbn [insert_keyed]. destruct (lt (fst y) (fst x)); [|apply Permutation_refl].
  apply perm_trans with (y :: x :: l); [now apply perm_skip | apply perm_swap].
Qed.

Lemma sort_keyed_perm : forall (A K : Type) (lt : K -> K -> bool) (l : list (K * A)),
  Permutation (sort_keyed lt l) l.
Proof.
  intros A K lt l. unfold sort_keyed. induction l as [|x l IH]; [apply Permutation_refl|].
  cbn [fold_right]. apply perm_trans with (x :: fold_right (insert_keyed lt) [] l).
  - apply insert_keyed_perm.
  - now apply perm_skip.
Qed.

Lemma sorted_locations_perm : forall refs, Permutation (sorted_locations refs) refs.
Proof.
  intros refs. unfold sorted_locations.
  apply perm_trans with (map snd (map (fun p => (key_of p, p)) refs)).
  - apply Permutation_map. apply sort_keyed_perm.
  - rewrite map_map. cbn [snd]. rewrite map_id. apply Permutation_refl.
Qed.

Lemma forallb_perm : forall (A : Type) (q : A -> bool) (l l' : list A),
  Permutation l l' -> forallb q l' = true -> forallb q l = true.
Proof.
  intros A q l l' P H. rewrite forallb_forall in *. intros x Hx.
  apply H. now apply (Permutation_in _ P).
Qed.

Lemma key_lt_asym : forall k1 k2, key_lt k1 k2 = true -> key_lt k2 k1 = false.
Proof.
  intros [[s1 c1] r1] [[s2 c2] r2]. unfold key_lt.
  destruct (String.eqb s1 s2) eqn:Es.
  - rewrite String.eqb_sym, Es.
    destruct (c1 =? c2) eqn:Ec.
    + rewrite Z.eqb_sym, Ec. intros H. apply Z.ltb_lt in H. apply Z.ltb_ge. lia.
    + rewrite Z.eqb_sym, Ec. intros H. apply Z.ltb_lt in H. apply Z.ltb_ge. lia.
  - rewrite String.eqb_sym, Es. unfold String.ltb.
    rewrite (String.compare_antisym s2 s1).
    destruct (String.compare s1 s2); cbn; congruence.
Qed.

Lemma insert_keyed_sorted : forall (A K : Type) (lt : K -> K -> bool),
  (forall a b, lt a b = true -> lt b a = false) ->
  forall (x : K * A) (l : list (K * A)),
    Sorted (fun a b => lt (fst b) (fst a) = false) l ->
    Sorted (fun a b => lt (fst b) (fst a) = false) (insert_keyed lt x l).
Proof.
  intros A K lt asym x l Hs. induction Hs as [|y l Hs IH Hd].
  - repeat constructor.
  - cbn [insert_keyed]. destruct (lt (fst y) (fst x)) eqn:E.
    + constructor; [exact IH|].
      destruct l as [|z l]; cbn [insert_keyed].
      * constructor. now apply asym.
      * destruct (lt (fst z) (fst x)).
        -- constructor. now inversion Hd.
        -- constructor. now apply asym.
    + constructor; [now constructor | constructor; exact E].
Qed.

Lemma sort_keyed_sorted : forall (A K : Type) (lt : K -> K -> bool),
  (forall a b, lt a b = true -> lt b a = false) ->
  forall l : list (K * A),
    Sorted (fun a b => lt (fst b) (fst a) = false) (sort_keyed lt l).
Proof.
  intros A K lt asym l. unfold sort_keyed. induction l as [|x l IH]; [constructor|].
  cbn [fold_right]. now apply insert_keyed_sorted.
Qed.

Lemma sorted_map_snd : forall (l : list ((string * Z * Z) * (string * string))),
  Forall (fun kx => fst kx = key_of (snd kx)) l ->
  Sorted (fun a b => key_lt (fst b) (fst a) = false) l ->
  Sorted in_order (map snd l).
Proof.
  intros l HF Hs. induction Hs as [|x l Hs IH Hd]; [constructor|].
  inversion HF as [|? ? Hx HF']; subst. cbn [map]. constructor; [now apply IH|].
  destruct Hd as [|y l Hxy]; [constructor|]. cbn [map]. constructor.
  inversion HF' as [|? ? Hy _]; subst. unfold in_order. now rewrite <- Hx, <- Hy.
Qed.

Lemma sorted_locations_sorted : forall refs, Sorted in_order (sorted_locations refs).
Proof.
  intros refs. unfold sorted_locations. apply sorted_map_snd.
  - apply sort_keyed_forall. apply Forall_forall. intros kx Hin.
    apply in_map_iff in Hin. destruct Hin as [p [<- _]]. reflexivity.
  - apply sort_keyed_sorted. exact key_lt_asym.
Qed.

(** ** The runs *)

Lemma segment_cells : forall l first last_ acc,
  List.concat (map run_cells (segment l first last_ acc)) = (first :: rev acc ++ l)%list.
Proof.
  induction l as [|p l IH]; intros first last_ acc; cbn [segment].
  - cbn [map List.concat]. unfold run_cells. cbn [fst snd]. now rewrite !app_nil_r.
  - destruct (continues first last_ p).
    + rewrite IH. cbn [rev]. rewrite <- app_assoc. reflexivity.
    + cbn [map List.concat]. rewrite IH. unfold run_cells at 1. cbn [fst snd rev app].
      reflexivity.
Qed.

Lemma runs_of_cells : forall l, List.concat (map run_cells (runs_of l)) = l.
Proof.
  intros [|p l]; [reflexivity|]. cbn [runs_of]. now rewrite segment_cells.
Qed.

Lemma last_cons : forall (A : Type) (l : list A) (x d : A), last (x :: l) d = last l x.
Proof.
  intros A l. induction l as [|y l IH]; intros x d; [reflexivity|].
  change (last (x :: y :: l) d) with (last (y :: l) d). now rewrite !IH.
Qed.

Lemma chained_snoc : forall first l prev p,
  chained first prev l -> fst p = fst first ->
  steps_to (snd (last l prev)) (snd p) = true ->
  chained first prev (l ++ [p]).
Proof.
  intros first l. induction l as [|x l IH]; intros prev p Hc Hs Ht.
  - cbn in *. tauto.
  - cbn [app chained] in *. destruct Hc as [H1 [H2 H3]]. repeat split; try assumption.
    apply IH; try assumption. now rewrite last_cons in Ht.
Qed.

Lemma segment_chained : forall l first last_ acc,
  chained first first (rev acc) -> last (rev acc) first = last_ ->
  Forall (fun r => chained (fst r) (fst r) (snd r)) (segment l first last_ acc).
Proof.
  induction l as [|p l IH]; intros first last_ acc Hc Hl; cbn [segment].
  - constructor; [exact Hc | constructor].
  - destruct (continues first last_ p) eqn:E.
    + apply IH; [|cbn [rev]; apply last_snoc].
      unfold continues in E. apply andb_prop in E. destruct E as [E1 E2].
      apply String.eqb_eq in E1. cbn [rev]. apply chained_snoc; try assumption.
      now rewrite Hl.
    + constructor; [exact Hc|]. apply IH; [exact I | reflexivity].
Qed.

Lemma segment_head : forall l first last_ acc,
  exists tail rs, segment l first last_ acc = (first, tail) :: rs.
Proof.
  induction l as [|p l IH]; intros first last_ acc; cbn [segment].
  - eauto.
  - destruct (continues first last_ p); [apply IH | eauto].
Qed.

Lemma segment_separated : forall l first last_ acc,
  last (rev acc) first = last_ -> separated (segment l first last_ acc).
Proof.
  induction l as [|p l IH]; intros first last_ acc Hl; cbn [segment].
  - exact I.
  - destruct (continues first last_ p) eqn:E.
    + apply IH. cbn [rev]. apply last_snoc.
    + pose proof (IH p p [] eq_refl) as Hs.
      destruct (segment_head l p p []) as [tail [rs Hseg]]. rewrite Hseg in *.
      cbn [separated]. split; [|exact Hs].
      unfold run_last. cbn [fst snd]. now rewrite Hl.
Qed.

Lemma runs_shorter : forall rs : list run,
  (List.length rs <= List.length (List.concat (map run_cells rs)))%nat.
Proof.
  induction rs as [|r rs IH]; [apply Nat.le_refl|].
  cbn [map List.concat]. rewrite length_app. unfold run_cells at 1. cbn [List.length]. lia.
Qed.

Lemma runs_of_nonempty : forall l, l <> [] -> runs_of l <> [].
Proof.
  intros [|p l] H; [now elim H|]. cbn [runs_of].
  destruct (segment_head l p p []) as [tail [rs E]]. rewrite E. discriminate.
Qed.

(** ** The compressor as a function of its input *)

Lemma compress_try_locations : forall refs,
  forallb (fun p => column_ok (snd p)) refs = true ->
  compress_try (locations refs)
  = Ret (map render_run (runs_of (sorted_locations refs))).
Proof.
  intros refs H. unfold compress_try.
  rewrite (sorted_refs_of_locations refs H). cbn [bind].
  pose proof (forallb_perm _ (fun p => column_ok (snd p)) _ _
                (sorted_locations_perm refs) H) as Hs.
  destruct (sorted_locations refs) as [|[sheet cell] l]; [reflexivity|].
  rewrite locations_cons. cbn [unpack2 bind].
  cbn [forallb snd] in Hs. apply andb_prop in Hs. destruct Hs as [Hc Hl].
  destruct (scan_segment l (Scan [] sheet cell sheet cell) (sheet, cell) (sheet, cell) [])
    as [st' [H1 H2]]; try assumption; try reflexivity.
  rewrite H1. cbn [bind]. rewrite H2. reflexivity.
Qed.

Lemma compress_try_locations_bad : forall refs,
  forallb (fun p => column_ok (snd p)) refs = false ->
  compress_try (locations refs) = Raise ValueError.
Proof.
  intros refs H. unfold compress_try, sorted_refs_of.
  rewrite (keyed_locations_bad refs H). reflexivity.
Qed.

Lemma compress_locations : forall refs,
  compress_cell_references (locations refs)
  = Ret (if forallb (fun p => column_ok (snd p)) refs
         then map render_run (runs_of (sorted_locations refs))
         else map fallback_text refs).
Proof.
  intros refs. destruct refs as [|p refs]; [reflexivity|].
  unfold compress_cell_references.
  remember (locations (p :: refs)) as l eqn:El.
  destruct l as [|x l]; [discriminate El|]. rewrite El.
  destruct (forallb (fun p => column_ok (snd p)) (p :: refs)) eqn:E.
  - now rewrite (compress_try_locations _ E).
  - rewrite (compress_try_locations_bad _ E). apply compress_fallback_locations.
Qed.

(** ** The grammar of the emitted strings *)

Lemma str_forall_app : forall p a b,
  str_forall p (a ++ b) = (str_forall p a && str_forall p b)%bool.
Proof.
  intros p a b. induction a as [|c a IH]; [reflexivity|].
  cbn [append str_forall]. rewrite IH. now rewrite andb_assoc.
Qed.

Lemma span_spec : forall p s a b,
  span p s = (a, b) -> s = a ++ b /\ str_forall p a = true.
Proof.
  intros p s. induction s as [|c s IH]; intros a b H; cbn [span] in H.
  - injection H as <- <-. split; reflexivity.
  - destruct (p c) eqn:E.
    + destruct (span p s) as [a' b'] eqn:Es. injection H as <- <-.
      destruct (IH a' b' eq_refl) as [-> Ha]. split; [reflexivity|].
      cbn [str_forall]. now rewrite E, Ha.
    + injection H as <- <-. split; reflexivity.
Qed.

(** A cell is made of upper-case letters and digits only. *)
Lemma is_cell_chars : forall s,
  is_cell s = true -> str_forall (fun c => (is_upper c || isdigit c)%bool) s = true.
Proof.
  intros s H. unfold is_cell in H. destruct (span is_upper s) as [letters digits] eqn:E.
  destruct (span_spec _ _ _ _ E) as [-> Hl].
  apply andb_prop in H. destruct H as [_ Hd].
  rewrite str_forall_app. apply andb_true_intro. split.
  - clear -Hl. induction letters as [|c l IH]; [reflexivity|].
    cbn [str_forall] in *. apply andb_prop in Hl. destruct Hl as [H1 H2].
    now rewrite H1, IH.
  - clear -Hd. induction digits as [|c l IH]; [reflexivity|].
    cbn [str_forall] in *. apply andb_prop in Hd. destruct Hd as [H1 H2].
    now rewrite H1, orb_true_r, IH.
Qed.

Lemma is_cell_without : forall s sep,
  is_cell s = true -> (is_upper sep || isdigit sep)%bool = false ->
  str_forall (fun c => negb (Ascii.eqb c sep)) s = true.
Proof.
  intros s sep H Hsep. apply is_cell_chars in H.
  induction s as [|c s IH]; [reflexivity|].
  cbn [str_forall] in *. apply andb_prop in H. destruct H as [H1 H2].
  rewrite (IH H2), andb_true_r.
  destruct (Ascii.eqb c sep) eqn:E; [|reflexivity].
  apply Ascii.eqb_eq in E. subst. congruence.
Qed.

Lemma split_last_none : forall sep a,
  str_forall (fun c => negb (Ascii.eqb c sep)) a = true -> split_last sep a = None.
Proof.
  intros sep a. induction a as [|c a IH]; intros H; [reflexivity|].
  cbn [str_forall] in H. apply andb_prop in H. destruct H as [H1 H2].
  cbn [split_last]. rewrite (IH H2).
  destruct (Ascii.eqb c sep); [discriminate H1 | reflexivity].
Qed.

Lemma split_last_app : forall sep s a,
  str_forall (fun c => negb (Ascii.eqb c sep)) a = true ->
  split_last sep (s ++ String sep a) = Some (s, a).
Proof.
  intros sep s a H. induction s as [|c s IH].
  - cbn [append split_last]. rewrite (split_last_none sep a H).
    now rewrite Ascii.eqb_refl.
  - cbn [append split_last]. now rewrite IH.
Qed.

Lemma split_first_app : forall sep a b,
  str_forall (fun c => negb (Ascii.eqb c sep)) a = true ->
  split_first sep (a ++ String sep b) = Some (a, b).
Proof.
  intros sep a b. induction a as [|c a IH]; intros H.
  - cbn [append split_first]. now rewrite Ascii.eqb_refl.
  - cbn [str_forall] in H. apply andb_prop in H. destruct H as [H1 H2].
    cbn [append split_first]. rewrite (IH H2).
    destruct (Ascii.eqb c sep); [discriminate H1 | reflexivity].
Qed.

(** What [_format_range] makes of a sheet name and two cells is in the
    grammar, whatever the sheet name. *)
Lemma format_range_in_grammar : forall sheet a b,
  is_cell a = true -> is_cell b = true ->
  is_range_expression (_format_range sheet a b) = true.
Proof.
  intros sheet a b Ha Hb. unfold _format_range, is_range_expression.
  assert (Na : str_forall (fun c => negb (Ascii.eqb c "!")) a = true)
    by (apply is_cell_without; [exact Ha | reflexivity]).
  assert (Nb : str_forall (fun c => negb (Ascii.eqb c "!")) b = true)
    by (apply is_cell_without; [exact Hb | reflexivity]).
  assert (Ca : str_forall (fun c => negb (Ascii.eqb c ":")) a = true)
    by (apply is_cell_without; [exact Ha | reflexivity]).
  destruct (String.eqb a b).
  - change (sheet ++ "!" ++ a) with (sheet ++ String "!" a).
    rewrite (split_last_app "!" sheet a Na). now rewrite Ha.
  - change (sheet ++ "!" ++ a ++ ":" ++ b) with (sheet ++ String "!" (a ++ String ":" b)).
    rewrite split_last_app.
    + rewrite (split_first_app ":" a b Ca), Ha, Hb. apply orb_true_r.
    + rewrite str_forall_app, Na. cbn [str_forall andb]. now rewrite Nb.
Qed.

Lemma fallback_in_grammar : forall p,
  is_cell (snd p) = true -> is_range_expression (fallback_text p) = true.
Proof.
  intros [sheet cell] H. cbn [snd] in H. unfold fallback_text. cbn [fst snd].
  pose proof (format_range_in_grammar sheet cell cell H H) as F.
  unfold _format_range in F. now rewrite String.eqb_refl in F.
Qed.

Lemma run_ends_in : forall (rs : list run) (r : run),
  In r rs ->
  In (fst r) (List.concat (map run_cells rs))
  /\ In (run_last r) (List.concat (map run_cells rs)).
Proof.
  induction rs as [|r0 rs IH]; intros r Hin; [contradiction|].
  cbn [map List.concat]. destruct Hin as [-> | Hin].
  - split; apply in_or_app; left; unfold run_cells.
    + now left.
    + unfold run_last. destruct (snd r) as [|x l] eqn:E; [now left|].
      right. rewrite <- E.
      assert (Hne : snd r <> []) by (rewrite E; discriminate).
      pose proof (exists_last Hne) as [l' [y Ey]]. rewrite Ey.
      rewrite last_last. apply in_or_app. right. now left.
  - destruct (IH r Hin) as [H1 H2]. split; apply in_or_app; now right.
Qed.

(** * The compressor on locations: theorems *)

Lemma plain_cells_column_ok : forall refs : list (string * string),
  forallb (fun p => plain_cell (snd p)) refs = true ->
  forallb (fun p => column_ok (snd p)) refs = true.
Proof.
  intros refs H. rewrite forallb_forall in *. intros p Hp.
  pose proof (H p Hp) as C. unfold plain_cell in C.
  apply andb_prop in C. destruct C as [C _]. apply andb_prop in C. now destruct C.
Qed.

(** X1.  On locations whose cell references are ASCII text with column
    letters that are a column name and at most 4300 row digits, the
    compressor returns the range expressions of the runs the scan cuts the
    sorted input into: the runs, one after the other, are the sorted input,
    hence a permutation of the input; the locations of a run are on one
    sheet, each one step (a row down or a column right) from the one before;
    and no run could have taken the first location of the next. *)
Theorem compress_emits_runs_of_sorted_input :
  forall refs : list (string * string),
    forallb (fun p => plain_cell (snd p)) refs = true ->
    exists runs : list run,
      compress_cell_references (locations refs) = Ret (map render_run runs)
      /\ List.concat (map run_cells runs) = sorted_locations refs
      /\ Permutation (List.concat (map run_cells runs)) refs
      /\ Forall (fun r => chained (fst r) (fst r) (snd r)) runs
      /\ separated runs.
Proof.
  intros refs H. apply plain_cells_column_ok in H.
  exists (runs_of (sorted_locations refs)).
  rewrite compress_locations, H, runs_of_cells.
  split; [reflexivity|]. split; [reflexivity|].
  split; [apply sorted_locations_perm|].
  destruct (sorted_locations refs) as [|p l]; cbn [runs_of].
  - split; [constructor | exact I].
  - split; [apply segment_chained | apply segment_separated]; try reflexivity.
Qed.

Lemma compress_emits_runs_of_sorted_input_witness :
  forallb (fun p => plain_cell (snd p))
    [("S","B2"); ("S","A1"); ("T","A1"); ("S","A2")] = true
  /\ exists runs : list run,
       compress_cell_references
         (locations [("S","B2"); ("S","A1"); ("T","A1"); ("S","A2")])
       = Ret (map render_run runs)
       /\ List.concat (map run_cells runs)
          = sorted_locations [("S","B2"); ("S","A1"); ("T","A1"); ("S","A2")]
       /\ Permutation (List.concat (map run_cells runs))
            [("S","B2"); ("S","A1"); ("T","A1"); ("S","A2")]
       /\ Forall (fun r => chained (fst r) (fst r) (snd r)) runs
       /\ separated runs.
Proof.
  assert (H : forallb (fun p => plain_cell (snd p))
                [("S","B2"); ("S","A1"); ("T","A1"); ("S","A2")] = true)
    by (vm_compute; reflexivity).
  split; [exact H|].
  exact (compress_emits_runs_of_sorted_input _ H).
Defined.

(** X2.  On every list of locations the compressor returns at most as many
    range expressions as it is given locations, and none only when it is
    given none. *)
Theorem compress_never_longer_than_input :
  forall refs : list (string * string),
    exists out,
      compress_cell_references (locations refs) = Ret out
      /\ (List.length out <= List.length refs)%nat
      /\ (out = [] <-> refs = []).
Proof.
  intros refs. rewrite compress_locations. eexists. split; [reflexivity|].
  destruct (forallb (fun p => column_ok (snd p)) refs).
  - pose proof (sorted_locations_perm refs) as P.
    pose proof (runs_shorter (runs_of (sorted_locations refs))) as L.
    rewrite runs_of_cells in L. rewrite (Permutation_length P) in L.
    rewrite length_map. split; [exact L|]. split.
    + intros E. apply map_eq_nil in E.
      destruct (sorted_locations refs) as [|p l] eqn:Es.
      * apply Permutation_nil. exact P.
      * exfalso. apply (runs_of_nonempty (p :: l)); [discriminate | exact E].
    + intros ->. reflexivity.
  - rewrite length_map. split; [apply Nat.le_refl|]. split.
    + apply map_eq_nil.
    + intros ->. reflexivity.
Qed.

(** X3.  On locations whose cell references are ASCII text with column
    letters that are a column name and at most 4300 row digits, [sorted]
    returns a permutation of the locations in which no two neighbours are
    inverted for the key (sheet name, column index, row number). *)
Theorem sorted_refs_sorted_permutation :
  forall refs : list (string * string),
    forallb (fun p => plain_cell (snd p)) refs = true ->
    exists sorted,
      sorted_refs_of (locations refs) = Ret (locations sorted)
      /\ Permutation sorted refs
      /\ Sorted in_order sorted.
Proof.
  intros refs H. apply plain_cells_column_ok in H.
  exists (sorted_locations refs).
  split; [now apply sorted_refs_of_locations|].
  split; [apply sorted_locations_perm | apply sorted_locations_sorted].
Qed.

Lemma sorted_refs_sorted_permutation_witness :
  forallb (fun p => plain_cell (snd p)) [("S","AA1"); ("S","Z1"); ("R","B10"); ("R","B9")] = true
  /\ exists sorted,
       sorted_refs_of (locations [("S","AA1"); ("S","Z1"); ("R","B10"); ("R","B9")])
       = Ret (locations sorted)
       /\ Permutation sorted [("S","AA1"); ("S","Z1"); ("R","B10"); ("R","B9")]
       /\ Sorted in_order sorted.
Proof.
  assert (H : forallb (fun p => plain_cell (snd p))
                [("S","AA1"); ("S","Z1"); ("R","B10"); ("R","B9")] = true)
    by (vm_compute; reflexivity).
  split; [exact H|].
  exact (sorted_refs_sorted_permutation _ H).
Defined.

(** X4.  When every cell reference of the input is upper-case letters
    followed by digits, every string the compressor returns is in the
    grammar Sheet!Cell or Sheet!Cell:Cell, on the main path and on the
    fallback path, whatever the sheet names are. *)
Theorem compress_output_in_grammar :
  forall refs : list (string * string),
    forallb (fun p => is_cell (snd p)) refs = true ->
    exists out,
      compress_cell_references (locations refs) = Ret out
      /\ forallb is_range_expression out = true.
Proof.
  intros refs H. rewrite compress_locations. eexists. split; [reflexivity|].
  rewrite forallb_forall in H.
  destruct (forallb (fun p => column_ok (snd p)) refs).
  - apply forallb_forall. intros e He. apply in_map_iff in He.
    destruct He as [r [<- Hr]].
    destruct (run_ends_in _ _ Hr) as [H1 H2].
    rewrite runs_of_cells in H1, H2.
    pose proof (sorted_locations_perm refs) as P.
    apply (Permutation_in _ P) in H1. apply (Permutation_in _ P) in H2.
    unfold render_run. apply format_range_in_grammar; [exact (H _ H1) | exact (H _ H2)].
  - apply forallb_forall. intros e He. apply in_map_iff in He.
    destruct He as [p [<- Hp]]. apply fallback_in_grammar. exact (H _ Hp).
Qed.

Lemma compress_output_in_grammar_witness :
  forallb (fun p => is_cell (snd p)) [("My!Sheet","A1"); ("My!Sheet","A2"); ("X","ABCD7")] = true
  /\ exists out,
       compress_cell_references
         (locations [("My!Sheet","A1"); ("My!Sheet","A2"); ("X","ABCD7")]) = Ret out
       /\ forallb is_range_expression out = true.
Proof.
  assert (H : forallb (fun p => is_cell (snd p))
                [("My!Sheet","A1"); ("My!Sheet","A2"); ("X","ABCD7")] = true)
    by (vm_compute; reflexivity).
  split; [exact H|].
  exact (compress_output_in_grammar _ H).
Defined.

(** * The classifier: further theorems *)

Lemma match_patterns_hit : forall (re_match : string -> string -> outcome bool)
    (items : dict string) (value_str category : string),
  match_patterns re_match items value_str = Ret (Some category) ->
  exists name pattern,
    In (name, pattern) items /\ category = "[" ++ upper name ++ "]".
Proof.
  intros re_match items value_str category.
  induction items as [|[name pattern] items IH]; intros H; cbn [match_patterns] in H.
  - discriminate H.
  - apply bind_ret in H. destruct H as [m [_ H]]. destruct m.
    + injection H as <-. exists name, pattern. split; [now left | reflexivity].
    + destruct (IH H) as [n [p [Hin E]]]. exists n, p. split; [now right | exact E].
Qed.

(** X5.  Whatever the two library calls do, on a configuration whose
    pattern names are ASCII text, a value that is classified is classified
    as Empty, [DATE], [TIME], Others, or as the upper-cased name of a
    pattern of the table between brackets. *)
Theorem recognize_result_range :
  forall (re_match : string -> string -> outcome bool)
         (strptime : string -> string -> outcome unit)
         (self : compressor) (v : value) (category : string),
    forallb (fun kv => is_ascii (fst kv)) (_patterns self) = true ->
    str_limit_ok v = true ->
    recognize_data_type re_match strptime self v = Ret category ->
    category = "Empty" \/ category = "[DATE]" \/ category = "[TIME]"
    \/ category = "Others"
    \/ exists name pattern,
         In (name, pattern) (_patterns self)
         /\ category = "[" ++ upper name ++ "]".
Proof.
  intros re_match strptime self v category _ _ H. unfold recognize_data_type in H.
  destruct (is_blank v); [injection H as <-; now left|].
  apply bind_ret in H. destruct H as [hit [Hhit H]].
  destruct hit as [c|].
  - injection H as ->. right. right. right. right.
    exact (match_patterns_hit _ _ _ _ Hhit).
  - apply bind_ret in H. destruct H as [d [_ H]]. destruct d.
    + injection H as <-. right. now left.
    + apply bind_ret in H. destruct H as [t [_ H]]. destruct t; injection H as <-.
      * right. right. now left.
      * right. right. right. now left.
Qed.

Lemma recognize_result_range_witness :
  forallb (fun kv => is_ascii (fst kv)) (_patterns default_compressor) = true
  /\ str_limit_ok (VStr "50%") = true
  /\ recognize_data_type Re.py_match Strptime.py_strptime default_compressor (VStr "50%")
     = Ret "[PERCENTAGE]"
  /\ ("[PERCENTAGE]" = "Empty" \/ "[PERCENTAGE]" = "[DATE]" \/ "[PERCENTAGE]" = "[TIME]"
      \/ "[PERCENTAGE]" = "Others"
      \/ exists name pattern,
           In (name, pattern) (_patterns default_compressor)
           /\ "[PERCENTAGE]" = "[" ++ upper name ++ "]").
Proof.
  assert (A : forallb (fun kv => is_ascii (fst kv)) (_patterns default_compressor) = true)
    by reflexivity.
  assert (L : str_limit_ok (VStr "50%") = true) by reflexivity.
  assert (H : recognize_data_type Re.py_match Strptime.py_strptime default_compressor
                (VStr "50%") = Ret "[PERCENTAGE]") by (vm_compute; reflexivity).
  split; [exact A|]. split; [exact L|]. split; [exact H|].
  exact (recognize_result_range _ _ _ _ _ A L H).
Defined.

(** X6.  Whatever the configuration and the two library calls do, a value
    is classified as Empty exactly when it is None or a text made of white
    space only (of any of the white space characters that [str.strip]
    removes, the empty text included); on such a value no pattern and no
    format is tried, so that nothing can raise. *)
Theorem recognize_empty_iff_blank :
  forall (re_match : string -> string -> outcome bool)
         (strptime : string -> string -> outcome unit)
         (self : compressor) (v : value),
    recognize_data_type re_match strptime self v = Ret "Empty"
    <-> (v = VNone \/ exists s, v = VStr s /\ whitespace_only s = true).
Proof.
  intros re_match strptime self v. split.
  - intros H. destruct (is_blank v) eqn:B.
    + destruct v as [|s|n|r]; try discriminate B; [now left|].
      right. exists s. split; [reflexivity|]. now apply strip_empty_iff.
    + exfalso. unfold recognize_data_type in H. rewrite B in H.
      apply bind_ret in H. destruct H as [hit [Hhit H]]. destruct hit as [c|].
      * injection H as ->.
        destruct (match_patterns_hit _ _ _ _ Hhit) as [n [p [_ E]]]. discriminate E.
      * apply bind_ret in H. destruct H as [d [_ H]]. destruct d; [discriminate H|].
        apply bind_ret in H. destruct H as [t [_ H]]. destruct t; discriminate H.
  - intros H. unfold recognize_data_type.
    assert (B : is_blank v = true).
    { destruct H as [-> | [s [-> Hs]]]; [reflexivity|]. cbn [is_blank].
      now apply strip_empty_iff. }
    now rewrite B.
Qed.

(** X7.  White space around a text does not change its class: a text and
    its stripped form are classified alike, and raise alike. *)
Theorem recognize_ignores_surrounding_space :
  forall (re_match : string -> string -> outcome bool)
         (strptime : string -> string -> outcome unit)
         (self : compressor) (s : string),
    recognize_data_type re_match strptime self (VStr (strip s))
    = recognize_data_type re_match strptime self (VStr s).
Proof.
  intros re_match strptime self s. unfold recognize_data_type.
  cbn [is_blank str_of_value]. now rewrite strip_idempotent.
Qed.

Lemma match_patterns_first : forall (re_match : string -> string -> outcome bool)
    (before after : dict string) (name pattern value_str : string),
  (forall n p, In (n, p) before -> re_match p value_str = Ret false) ->
  re_match pattern value_str = Ret true ->
  match_patterns re_match (before ++ (name, pattern) :: after)%list value_str
  = Ret (Some ("[" ++ upper name ++ "]")).
Proof.
  intros re_match before after name pattern value_str.
  induction before as [|[n p] before IH]; intros Hb Hp; cbn [app match_patterns].
  - now rewrite Hp.
  - rewrite (Hb n p (or_introl eq_refl)). cbn [bind]. apply IH; [|exact Hp].
    intros n' p' Hin. apply (Hb n' p'). now right.
Qed.

(** X8.  The first pattern of the table that matches decides: when the
    patterns before it do not match, a value that [str] converts is
    classified under the pattern's name (ASCII text, upper-cased, between
    brackets), whatever the patterns after it are (they are not tried, so
    that one that does not compile does no harm) and whatever the date and
    time formats are. *)
Theorem recognize_first_match_wins :
  forall (re_match : string -> string -> outcome bool)
         (strptime : string -> string -> outcome unit)
         (self : compressor) (v : value)
         (before after : dict string) (name pattern : string),
    is_blank v = false ->
    str_limit_ok v = true ->
    is_ascii name = true ->
    _patterns self = (before ++ (name, pattern) :: after)%list ->
    (forall n p, In (n, p) before -> re_match p (strip (str_of_value v)) = Ret false) ->
    re_match pattern (strip (str_of_value v)) = Ret true ->
    recognize_data_type re_match strptime self v = Ret ("[" ++ upper name ++ "]").
Proof.
  intros re_match strptime self v before after name pattern B _ _ E Hb Hp.
  unfold recognize_data_type. rewrite B, E.
  now rewrite (match_patterns_first re_match before after name pattern _ Hb Hp).
Qed.

Lemma recognize_first_match_wins_witness :
  is_blank (VStr "1999") = false
  /\ str_limit_ok (VStr "1999") = true
  /\ is_ascii "year" = true
  /\ _patterns (init (Some [("zz", "(")]) None None)
     = ([("url", "^(https?:\/\/|www\.|ftp:\/\/|file:\/\/)[a-zA-Z0-9\-\.]+\.[a-zA-Z]{2,}(:[0-9]+)?(\/\S*)?$")]
        ++ ("year", "^(1|2)\d{3}$")
           :: skipn 2 (_patterns (init (Some [("zz", "(")]) None None)))%list
  /\ recognize_data_type Re.py_match Strptime.py_strptime
       (init (Some [("zz", "(")]) None None) (VStr "1999")
     = Ret ("[" ++ upper "year" ++ "]").
Proof.
  assert (B : is_blank (VStr "1999") = false) by reflexivity.
  assert (L : str_limit_ok (VStr "1999") = true) by reflexivity.
  assert (A : is_ascii "year" = true) by reflexivity.
  assert (E : _patterns (init (Some [("zz", "(")]) None None)
     = ([("url", "^(https?:\/\/|www\.|ftp:\/\/|file:\/\/)[a-zA-Z0-9\-\.]+\.[a-zA-Z]{2,}(:[0-9]+)?(\/\S*)?$")]
        ++ ("year", "^(1|2)\d{3}$")
           :: skipn 2 (_patterns (init (Some [("zz", "(")]) None None)))%list)
    by reflexivity.
  split; [exact B|]. split; [exact L|]. split; [exact A|]. split; [exact E|].
  apply (recognize_first_match_wins Re.py_match Strptime.py_strptime _ _ _ _ _ _ B L A E).
  - intros n p [H | []]. injection H as _ <-. vm_compute. reflexivity.
  - vm_compute. reflexivity.
Defined.




(** X10.  With the default configuration, on the models of [re.match] and
    [datetime.strptime], every value is classified: nothing raises.  (An
    integer is taken below the size at which [str] itself refuses it.) *)
Theorem default_configuration_never_raises :
  forall v : value,
    str_limit_ok v = true ->
    exists category, py_recognize_data_type default_compressor v = Ret category.
Proof.
  intros v _. unfold py_recognize_data_type, recognize_data_type.
  destruct (is_blank v); [eauto|].
  destruct (match_patterns_returns Re.py_match (_patterns default_compressor)
              (strip (str_of_value v))) as [hit Hhit].
  { intros name pattern. apply default_patterns_compile. }
  rewrite Hhit. cbn [bind]. destruct hit as [category|]; [eauto|].
  destruct (try_formats_returns Strptime.py_strptime (_date_patterns default_compressor)
              (strip (str_of_value v))) as [d Hd].
  { intros f Hin. apply default_formats_compile. apply in_or_app. now left. }
  rewrite Hd. cbn [bind]. destruct d; [eauto|].
  destruct (try_formats_returns Strptime.py_strptime (_time_patterns default_compressor)
              (strip (str_of_value v))) as [t Ht].
  { intros f Hin. apply default_formats_compile. apply in_or_app. now right. }
  rewrite Ht. cbn [bind]. destruct t; eauto.
Qed.

Lemma default_configuration_never_raises_witness :
  str_limit_ok (VStr "3 apples") = true
  /\ exists category,
       py_recognize_data_type default_compressor (VStr "3 apples") = Ret category.
Proof.
  split; [reflexivity|].
  apply (default_configuration_never_raises (VStr "3 apples")). reflexivity.
Defined.

(** * Numerals under the default configuration *)

Lemma all_ascii_complete : forall c, In c all_ascii.
Proof.
  intros c. unfold all_ascii. apply in_map_iff.
  exists (N.to_nat (N_of_ascii c)). split.
  - rewrite N2Nat.id. apply ascii_N_embedding.
  - apply in_seq. pose proof (N_ascii_bounded c). lia.
Qed.

(** A property of characters that evaluates to true on each of them. *)
Lemma for_all_ascii : forall P : ascii -> bool,
  forallb P all_ascii = true -> forall c, P c = true.
Proof.
  intros P H c. rewrite forallb_forall in H. apply H. apply all_ascii_complete.
Qed.

Lemma matches_void : forall s first, Re.matches_from first Re.Void s = false.
Proof.
  induction s as [|c s IH]; intros first; [reflexivity|].
  cbn [Re.matches_from Re.nullable Re.deriv orb]. apply IH.
Qed.

Lemma is_void_eq : forall r, is_void r = true -> r = Re.Void.
Proof. intros r H. destruct r; try discriminate. reflexivity. Qed.

Lemma regex_eqb_eq : forall a b : Re.regex, regex_eqb a b = true -> a = b.
Proof.
  intros a b H. unfold regex_eqb in H.
  destruct (regex_eq_dec a b); [assumption | discriminate].
Qed.

Lemma digit_facts : forall c,
  isdigit c = true ->
  Ascii.eqb c Re.newline = false
  /\ In c digits10
  /\ Re.deriv true false c integer_regex = integer_after_digit
  /\ Re.deriv false false c integer_after_sign = integer_after_digit
  /\ Re.deriv false false c integer_after_digit = integer_after_digit
  /\ Re.deriv true false c url_regex = Re.Void.
Proof.
  intros c H.
  assert (F : digit_check c = true)
    by (apply (for_all_ascii digit_check); vm_compute; reflexivity).
  unfold digit_check in F. rewrite H in F. cbn [implb] in F.
  repeat match goal with
         | X : (_ && _)%bool = true |- _ => apply andb_prop in X; destruct X
         end.
  repeat match goal with
         | X : regex_eqb _ _ = true |- _ => apply regex_eqb_eq in X
         | X : is_void _ = true |- _ => apply is_void_eq in X
         | X : negb _ = true |- _ => apply negb_true_iff in X
         end.
  repeat split; try assumption.
  match goal with
  | X : existsb _ _ = true |- _ =>
      apply existsb_exists in X; destruct X as [d [Hd E]];
      apply Ascii.eqb_eq in E; now subst
  end.
Qed.

(** Reading a digit: the position is not the end of the text. *)
Lemma matches_from_digit : forall first r c s,
  isdigit c = true ->
  Re.matches_from first r (String c s)
  = (Re.nullable first false r || Re.matches_from false (Re.deriv first false c r) s)%bool.
Proof.
  intros first r c s H. cbn [Re.matches_from].
  destruct (digit_facts c H) as [E _]. now rewrite E.
Qed.

Lemma py_match_compiled : forall pattern r s,
  Re.compile pattern = Ret r ->
  Re.py_match pattern s = Ret (Re.matches_from true r s).
Proof. intros pattern r s H. unfold Re.py_match. now rewrite H. Qed.

(** *** The URL pattern rejects numerals *)

Lemma url_rejects_numeral : forall s,
  is_numeral s = true -> Re.matches_from true url_regex s = false.
Proof.
  intros [|c t] H; [discriminate H|]. cbn [is_numeral] in H.
  destruct (Ascii.eqb c "-") eqn:E.
  - apply Ascii.eqb_eq in E. subst c. cbn [Re.matches_from].
    change (Ascii.eqb "-" Re.newline) with false. cbn [andb].
    change (Re.nullable true false url_regex) with false.
    change (Re.deriv true false "-" url_regex) with Re.Void.
    apply matches_void.
  - cbn [str_forall] in H. apply andb_prop in H. destruct H as [Hc _].
    rewrite (matches_from_digit _ _ _ _ Hc).
    destruct (digit_facts c Hc) as [_ [_ [_ [_ [_ U]]]]]. rewrite U.
    change (Re.nullable true false url_regex) with false.
    apply matches_void.
Qed.

(** *** The integer pattern accepts them *)

Lemma integer_after_digit_accepts : forall s,
  str_forall isdigit s = true ->
  Re.matches_from false integer_after_digit s = true.
Proof.
  induction s as [|c s IH]; intros H; [reflexivity|].
  cbn [str_forall] in H. apply andb_prop in H. destruct H as [Hc Hs].
  rewrite (matches_from_digit _ _ _ _ Hc).
  destruct (digit_facts c Hc) as [_ [_ [_ [_ [D _]]]]]. rewrite D.
  rewrite (IH Hs). apply orb_true_r.
Qed.

Lemma integer_accepts_numeral : forall s,
  is_numeral s = true -> Re.matches_from true integer_regex s = true.
Proof.
  intros [|c t] H; [discriminate H|]. cbn [is_numeral] in H.
  destruct (Ascii.eqb c "-") eqn:E.
  - apply Ascii.eqb_eq in E. subst c.
    apply andb_prop in H. destruct H as [Hne Ht].
    destruct t as [|d t]; [discriminate Hne|].
    cbn [str_forall] in Ht. apply andb_prop in Ht. destruct Ht as [Hd Ht].
    cbn [Re.matches_from]. change (Ascii.eqb "-" Re.newline) with false. cbn [andb].
    change (Re.deriv true false "-" integer_regex) with integer_after_sign.
    destruct (digit_facts d Hd) as [N [_ [_ [D _]]]]. rewrite N. cbn [andb].
    rewrite D, (integer_after_digit_accepts t Ht).
    now rewrite !orb_true_r.
  - pose proof H as H'. cbn [str_forall] in H. apply andb_prop in H.
    destruct H as [Hc Ht].
    rewrite (matches_from_digit _ _ _ _ Hc).
    destruct (digit_facts c Hc) as [_ [_ [D _]]]. rewrite D.
    rewrite (integer_after_digit_accepts t Ht). apply orb_true_r.
Qed.

(** *** The year pattern accepts four digits that start with 1 or 2 *)

Lemma digit_strings_complete : forall s,
  str_forall isdigit s = true -> In s (digit_strings (length s)).
Proof.
  induction s as [|c s IH]; intros H; [now left|].
  cbn [str_forall] in H. apply andb_prop in H. destruct H as [Hc Hs].
  cbn [length digit_strings]. apply in_flat_map. exists c. split.
  - now destruct (digit_facts c Hc) as [_ [D _]].
  - apply in_map. exact (IH Hs).
Qed.

Lemma survives_dead : forall p t first r,
  str_forall isdigit p = true ->
  survives first r p = false ->
  Re.matches_from first r (p ++ t) = false.
Proof.
  induction p as [|c p IH]; intros t first r Hp H.
  - cbn [survives] in H. apply negb_false_iff in H. apply is_void_eq in H.
    subst r. apply matches_void.
  - cbn [str_forall] in Hp. apply andb_prop in Hp. destruct Hp as [Hc Hp].
    cbn [survives] in H. apply orb_false_iff in H. destruct H as [N H].
    change (String c p ++ t) with (String c (p ++ t)).
    rewrite (matches_from_digit _ _ _ _ Hc), N. cbn [orb].
    exact (IH t false _ Hp H).
Qed.

Lemma year_on_digits : forall s,
  str_forall isdigit s = true ->
  Re.matches_from true year_regex s = is_year_text s.
Proof.
  intros s H.
  destruct (Nat.le_gt_cases (length s) 4) as [L | L].
  - assert (F : forallb (fun n => forallb (fun s =>
                   Bool.eqb (Re.matches_from true year_regex s) (is_year_text s))
                   (digit_strings n)) (seq 0 5) = true)
      by (vm_compute; reflexivity).
    rewrite forallb_forall in F.
    specialize (F (length s) ltac:(apply in_seq; lia)).
    rewrite forallb_forall in F.
    specialize (F s (digit_strings_complete s H)).
    now apply Bool.eqb_prop in F.
  - destruct s as [|c1 [|c2 [|c3 [|c4 [|c5 t]]]]]; cbn [length] in L; try lia.
    cbn [is_year_text].
    assert (F : forallb (fun p => negb (survives true year_regex p))
                        (digit_strings 5) = true) by (vm_compute; reflexivity).
    rewrite forallb_forall in F.
    cbn [str_forall] in H.
    repeat match goal with
           | X : (_ && _)%bool = true |- _ => apply andb_prop in X; destruct X
           end.
    pose (p := String c1 (String c2 (String c3 (String c4 (String c5 ""))))).
    assert (Hp : str_forall isdigit p = true).
    { cbn [p str_forall].
      repeat match goal with X : isdigit _ = true |- _ => rewrite X; clear X end.
      reflexivity. }
    specialize (F p (digit_strings_complete p Hp)).
    apply negb_true_iff in F.
    exact (survives_dead p t true year_regex Hp F).
Qed.

Lemma year_rejects_signed : forall t,
  Re.matches_from true year_regex (String "-" t) = false.
Proof.
  intros t. cbn [Re.matches_from].
  change (Ascii.eqb "-" Re.newline) with false. cbn [andb].
  change (Re.nullable true false year_regex) with false.
  change (Re.deriv true false "-" year_regex) with Re.Void.
  apply matches_void.
Qed.

Lemma is_year_text_signed : forall t, is_year_text (String "-" t) = false.
Proof. intros [|d1 [|d2 [|d3 [|d4 t]]]]; reflexivity. Qed.

Lemma year_on_numeral : forall s,
  is_numeral s = true ->
  Re.matches_from true year_regex s = is_year_text s.
Proof.
  intros [|c t] H; [discriminate H|]. cbn [is_numeral] in H.
  destruct (Ascii.eqb c "-") eqn:E.
  - apply Ascii.eqb_eq in E. subst c.
    now rewrite year_rejects_signed, is_year_text_signed.
  - now apply year_on_digits.
Qed.

Lemma url_compiles :
  Re.compile "^(https?:\/\/|www\.|ftp:\/\/|file:\/\/)[a-zA-Z0-9\-\.]+\.[a-zA-Z]{2,}(:[0-9]+)?(\/\S*)?$"
  = Ret url_regex.
Proof. vm_compute. reflexivity. Qed.

Lemma year_compiles : Re.compile "^(1|2)\d{3}$" = Ret year_regex.
Proof. vm_compute. reflexivity. Qed.

Lemma integer_compiles : Re.compile "^-?\d+$" = Ret integer_regex.
Proof. vm_compute. reflexivity. Qed.

(** The pattern table of the default configuration on a numeral. *)
Lemma default_patterns_on_numeral : forall s,
  is_numeral s = true ->
  match_patterns Re.py_match (_patterns default_compressor) s
  = Ret (Some (if is_year_text s then "[YEAR]" else "[INTEGER]")).
Proof.
  intros s H.
  change (_patterns default_compressor) with default_patterns.
  unfold default_patterns. cbn [match_patterns].
  rewrite (py_match_compiled _ _ s url_compiles).
  rewrite (url_rejects_numeral s H). cbn [bind].
  rewrite (py_match_compiled _ _ s year_compiles).
  rewrite (year_on_numeral s H). cbn [bind].
  destruct (is_year_text s); [reflexivity|].
  rewrite (py_match_compiled _ _ s integer_compiles).
  rewrite (integer_accepts_numeral s H). reflexivity.
Qed.

Lemma numeral_not_blank : forall s,
  is_numeral s = true -> String.eqb s "" = false.
Proof. intros [|c t] H; [discriminate H | reflexivity]. Qed.

(** *** [str] of an integer and back *)

Lemma uint_digits : forall u,
  str_forall isdigit (NilEmpty.string_of_uint u) = true.
Proof. induction u; cbn [NilEmpty.string_of_uint str_forall]; try rewrite IHu; reflexivity. Qed.

Lemma of_uint_acc_digits : forall u acc,
  int_of_digits_from (Zpos acc) (NilEmpty.string_of_uint u)
  = Zpos (Pos.of_uint_acc u acc).
Proof.
  induction u; intros acc; cbn [NilEmpty.string_of_uint int_of_digits_from Pos.of_uint_acc];
    try reflexivity;
    rewrite <- IHu; f_equal;
    match goal with
    | |- context [digit_value ?c] =>
        let v := eval vm_compute in (digit_value c) in
        change (digit_value c) with v
    end; lia.
Qed.

Lemma of_uint_digits : forall u,
  int_of_digits (NilEmpty.string_of_uint u) = Z.of_N (Pos.of_uint u).
Proof.
  unfold int_of_digits.
  induction u; cbn [NilEmpty.string_of_uint int_of_digits_from Pos.of_uint];
    try reflexivity;
    match goal with
    | |- context [digit_value ?c] =>
        let v := eval vm_compute in (10 * 0 + digit_value c) in
        change (10 * 0 + digit_value c) with v
    end;
    [exact IHu | apply of_uint_acc_digits ..].
Qed.

Lemma nilzero_nonnil : forall u,
  u <> Decimal.Nil -> NilZero.string_of_uint u = NilEmpty.string_of_uint u.
Proof. intros [] H; try reflexivity. now contradiction H. Qed.

Lemma str_of_int_pos : forall p,
  str_of_int (Zpos p) = NilEmpty.string_of_uint (Pos.to_uint p).
Proof.
  intros p. unfold str_of_int. cbn [Z.to_int NilZero.string_of_int].
  apply nilzero_nonnil. apply Unsigned.to_uint_nonnil.
Qed.

Lemma str_of_int_neg : forall p,
  str_of_int (Zneg p) = String "-" (NilEmpty.string_of_uint (Pos.to_uint p)).
Proof.
  intros p. unfold str_of_int. cbn [Z.to_int NilZero.string_of_int].
  f_equal. apply nilzero_nonnil. apply Unsigned.to_uint_nonnil.
Qed.

Lemma uint_nonempty : forall u,
  u <> Decimal.Nil -> String.eqb (NilEmpty.string_of_uint u) "" = false.
Proof. intros [] H; try reflexivity. now contradiction H. Qed.

(** [str(n)] is a numeral. *)
Lemma str_of_int_numeral : forall n, is_numeral (str_of_int n) = true.
Proof.
  intros [|p|p].
  - reflexivity.
  - rewrite str_of_int_pos.
    pose proof (uint_digits (Pos.to_uint p)) as D.
    pose proof (uint_nonempty (Pos.to_uint p) (Unsigned.to_uint_nonnil p)) as N.
    destruct (NilEmpty.string_of_uint (Pos.to_uint p)) as [|c t]; [discriminate N|].
    cbn [is_numeral]. destruct (Ascii.eqb c "-") eqn:E; [|exact D].
    apply Ascii.eqb_eq in E. subst c. discriminate D.
  - rewrite str_of_int_neg. cbn [is_numeral].
    change (Ascii.eqb "-" "-") with true. cbv iota.
    rewrite (uint_nonempty _ (Unsigned.to_uint_nonnil p)), uint_digits. reflexivity.
Qed.

(** [int(str(n)) = n] for a natural number. *)
Lemma int_of_str_of_int : forall n, 0 <= n -> int_of_digits (str_of_int n) = n.
Proof.
  intros [|p|p] H; [reflexivity | | lia].
  rewrite str_of_int_pos, of_uint_digits, Unsigned.of_to. reflexivity.
Qed.

Lemma str_of_int_digits : forall n,
  0 <= n -> str_forall isdigit (str_of_int n) = true.
Proof.
  intros [|p|p] H; [reflexivity | | lia].
  rewrite str_of_int_pos. apply uint_digits.
Qed.

(** *** Numerals carry no white space *)

Lemma str_forall_impl : forall (p q : ascii -> bool) s,
  (forall c, p c = true -> q c = true) ->
  str_forall p s = true -> str_forall q s = true.
Proof.
  intros p q s I. induction s as [|c s IH]; intros H; [reflexivity|].
  cbn [str_forall] in *. apply andb_prop in H. destruct H as [Hc Hs].
  now rewrite (I c Hc), (IH Hs).
Qed.

Lemma digit_plain : forall c,
  isdigit c = true -> (negb (isspace c) && N.ltb (code c) 128)%bool = true.
Proof.
  intros c H.
  pose proof (for_all_ascii
    (fun c => implb (isdigit c) (negb (isspace c) && N.ltb (code c) 128))%bool
    ltac:(vm_compute; reflexivity) c) as F.
  cbv beta in F. now rewrite H in F.
Qed.

Lemma numeral_plain : forall s,
  is_numeral s = true ->
  str_forall (fun c => (negb (isspace c) && N.ltb (code c) 128)%bool) s = true.
Proof.
  intros [|c t] H; [reflexivity|]. cbn [is_numeral] in H.
  destruct (Ascii.eqb c "-") eqn:E.
  - apply Ascii.eqb_eq in E. subst c. apply andb_prop in H. destruct H as [_ H].
    cbn [str_forall].
    change (negb (isspace "-") && N.ltb (code "-") 128)%bool with true. cbn [andb].
    exact (str_forall_impl _ _ t digit_plain H).
  - exact (str_forall_impl _ _ _ digit_plain H).
Qed.

Lemma strip_numeral : forall s, is_numeral s = true -> strip s = s.
Proof. intros s H. apply strip_fixed. now apply numeral_plain. Qed.

(** *** The year texts are the numerals of 1000 to 2999 *)

Lemma digit_value_range : forall c, isdigit c = true -> 0 <= digit_value c <= 9.
Proof.
  intros c H. unfold isdigit, in_range in H. apply andb_prop in H.
  destruct H as [H1 H2]. apply N.leb_le in H1. apply N.leb_le in H2.
  unfold digit_value. lia.
Qed.

Lemma is_year_text_range : forall s,
  is_year_text s = true -> 1000 <= int_of_digits s <= 2999.
Proof.
  intros [|c [|d1 [|d2 [|d3 [|d4 t]]]]] H; try discriminate H.
  cbn [is_year_text] in H.
  repeat match goal with
         | X : (_ && _)%bool = true |- _ => apply andb_prop in X; destruct X
         end.
  repeat match goal with
         | X : isdigit _ = true |- _ => apply digit_value_range in X
         end.
  assert (C : digit_value c = 1 \/ digit_value c = 2).
  { match goal with X : (_ || _)%bool = true |- _ => apply orb_prop in X; destruct X as [X | X];
      apply Ascii.eqb_eq in X; subst c; [now left | now right] end. }
  unfold int_of_digits. cbn [int_of_digits_from]. lia.
Qed.

Lemma year_numerals : forall n,
  1000 <= n <= 2999 -> is_year_text (str_of_int n) = true.
Proof.
  intros n H.
  assert (F : forallb (fun k => is_year_text (str_of_int (1000 + Z.of_nat k)))
                      (seq 0 2000) = true) by (vm_compute; reflexivity).
  rewrite forallb_forall in F.
  specialize (F (Z.to_nat (n - 1000)) ltac:(apply in_seq; lia)).
  now replace (1000 + Z.of_nat (Z.to_nat (n - 1000))) with n in F by lia.
Qed.

Lemma is_year_text_str_of_int : forall n,
  is_year_text (str_of_int n) = ((1000 <=? n) && (n <=? 2999))%bool.
Proof.
  intros n. destruct (is_year_text (str_of_int n)) eqn:E.
  - destruct n as [|p|p].
    + discriminate E.
    + apply is_year_text_range in E.
      rewrite (int_of_str_of_int (Zpos p) ltac:(lia)) in E.
      symmetry. apply andb_true_intro. split; apply Z.leb_le; lia.
    + rewrite str_of_int_neg, is_year_text_signed in E. discriminate E.
  - symmetry. apply not_true_is_false. intros B. apply andb_prop in B.
    destruct B as [B1 B2]. apply Z.leb_le in B1. apply Z.leb_le in B2.
    rewrite (year_numerals n (conj B1 B2)) in E. discriminate E.
Qed.

(** X11.  With the default configuration, a text that is a decimal numeral
    once the surrounding white space is off (digits, with or without a
    minus sign before them) is a [YEAR] when it is four digits that start
    with 1 or 2, and an [INTEGER] otherwise; no other pattern and no date
    or time format has a say. *)
Theorem numeral_text_is_year_or_integer :
  forall s : string,
    is_numeral (strip s) = true ->
    py_recognize_data_type default_compressor (VStr s)
    = Ret (if is_year_text (strip s) then "[YEAR]" else "[INTEGER]").
Proof.
  intros s H. unfold py_recognize_data_type, recognize_data_type.
  cbn [is_blank str_of_value]. rewrite (numeral_not_blank _ H).
  rewrite (default_patterns_on_numeral _ H). reflexivity.
Qed.

Lemma numeral_text_is_year_or_integer_witness :
  is_numeral (strip " -2024 ") = true
  /\ py_recognize_data_type default_compressor (VStr " -2024 ")
     = Ret (if is_year_text (strip " -2024 ") then "[YEAR]" else "[INTEGER]").
Proof.
  assert (H : is_numeral (strip " -2024 ") = true) by reflexivity.
  split; [exact H|]. exact (numeral_text_is_year_or_integer " -2024 " H).
Defined.

(** X12.  With the default configuration an integer is a [YEAR] when it
    lies between 1000 and 2999, and an [INTEGER] otherwise.  (The integer
    is taken below the size at which [str] itself refuses it.) *)
Theorem integer_is_year_or_integer :
  forall n : Z,
    str_limit_ok (VInt n) = true ->
    py_recognize_data_type default_compressor (VInt n)
    = Ret (if ((1000 <=? n) && (n <=? 2999))%bool then "[YEAR]" else "[INTEGER]").
Proof.
  intros n _. unfold py_recognize_data_type, recognize_data_type.
  cbn [is_blank str_of_value].
  rewrite (strip_numeral _ (str_of_int_numeral n)).
  rewrite (default_patterns_on_numeral _ (str_of_int_numeral n)).
  rewrite is_year_text_str_of_int. reflexivity.
Qed.

Lemma integer_is_year_or_integer_witness :
  str_limit_ok (VInt 3000) = true
  /\ py_recognize_data_type default_compressor (VInt 3000)
     = Ret (if ((1000 <=? 3000) && (3000 <=? 2999))%bool then "[YEAR]" else "[INTEGER]").
Proof.
  split; [reflexivity|]. apply (integer_is_year_or_integer 3000). reflexivity.
Defined.

(** * The compressor on references that are texts *)

Lemma mapM_forall : forall (A B : Type) (f : A -> outcome B) (P : A -> Prop) (Q : B -> Prop),
  (forall a b, P a -> f a = Ret b -> Q b) ->
  forall l l', Forall P l -> mapM f l = Ret l' -> Forall Q l'.
Proof.
  intros A B f P Q Hf. induction l as [|a l IH]; intros l' Hl H; cbn [mapM] in H.
  - injection H as <-. constructor.
  - inversion Hl as [|? ? Ha Hl']; subst.
    apply bind_ret in H. destruct H as [b [Hb H]].
    apply bind_ret in H. destruct H as [bs [Hbs H]]. injection H as <-.
    constructor; [exact (Hf a b Ha Hb) | exact (IH bs Hl' Hbs)].
Qed.

Lemma mapM_length : forall (A B : Type) (f : A -> outcome B) (l : list A) (l' : list B),
  mapM f l = Ret l' -> List.length l' = List.length l.
Proof.
  intros A B f. induction l as [|a l IH]; intros l' H; cbn [mapM] in H.
  - injection H as <-. reflexivity.
  - apply bind_ret in H. destruct H as [b [_ H]].
    apply bind_ret in H. destruct H as [bs [Hbs H]]. injection H as <-.
    cbn [List.length]. now rewrite (IH bs Hbs).
Qed.

(** The [try] block raises on texts of three or more characters: the sort
    may raise; if it does not, unpacking the first sorted text does. *)
Lemma compress_try_texts : forall refs,
  refs <> [] -> Forall (is_text_of 3) refs ->
  exists e, compress_try refs = Raise e.
Proof.
  intros refs Hne HF. unfold compress_try, sorted_refs_of.
  destruct (mapM (fun x => k <- sort_key x ;; Ret (k, x)) refs) as [keyed|e] eqn:E;
    cbn [bind]; [|eauto].
  assert (K : Forall (fun kx : (string * Z * Z) * reference => is_text_of 3 (snd kx)) keyed).
  { refine (mapM_forall _ _ _ (is_text_of 3) _ _ refs keyed HF E).
    intros a b Ha Hb. apply bind_ret in Hb. destruct Hb as [k [_ Hb]].
    injection Hb as <-. exact Ha. }
  apply (sort_keyed_forall _ _ key_lt) in K.
  pose proof (Permutation_length (sort_keyed_perm _ _ key_lt keyed)) as PL.
  rewrite (mapM_length _ _ _ _ _ E) in PL.
  destruct (sort_keyed key_lt keyed) as [|[k x] sorted].
  - destruct refs; [now elim Hne | discriminate PL].
  - cbn [map snd]. inversion K as [|? ? Hx _]; subst. cbn [snd] in Hx.
    destruct x as [sheet cell | s]; [contradiction|].
    cbn [is_text_of] in Hx.
    destruct s as [|a [|b [|c s]]]; cbn [length] in Hx; try lia.
    cbn [unpack2 bind]. eauto.
Qed.

Lemma compress_fallback_texts : forall ss,
  Forall (fun s => (2 <= length s)%nat) ss ->
  compress_fallback (map Txt ss) = Ret (map text_fallback ss).
Proof.
  unfold compress_fallback.
  induction ss as [|s ss IH]; intros H; [reflexivity|].
  inversion H as [|? ? Hs Hss]; subst. cbn [map mapM].
  rewrite (IH Hss).
  destruct s as [|a [|b s]]; cbn [length] in Hs; try lia.
  reflexivity.
Qed.

(** The compressor on texts of three or more characters. *)
Lemma compress_texts : forall ss,
  Forall (fun s => (3 <= length s)%nat) ss ->
  compress_cell_references (map Txt ss) = Ret (map text_fallback ss).
Proof.
  intros ss H. destruct ss as [|s ss]; [reflexivity|].
  assert (F3 : Forall (is_text_of 3) (map Txt (s :: ss))).
  { apply Forall_forall. intros x Hx. apply in_map_iff in Hx.
    destruct Hx as [t [<- Ht]]. cbn [is_text_of].
    rewrite Forall_forall in H. now apply H. }
  assert (F2 : Forall (fun s => (2 <= length s)%nat) (s :: ss)).
  { apply Forall_forall. intros t Ht. rewrite Forall_forall in H.
    pose proof (H t Ht) as L. lia. }
  destruct (compress_try_texts (map Txt (s :: ss)) ltac:(discriminate) F3) as [e E].
  unfold compress_cell_references.
  change (map Txt (s :: ss)) with (Txt s :: map Txt ss) in *.
  rewrite E. exact (compress_fallback_texts (s :: ss) F2).
Qed.

(** X15.  The compressor on texts.  Handed references that are ASCII
    texts of three or more characters (range expressions, say) and not
    (sheet, cell) pairs, the compressor raises nothing; through its
    [except] handler it returns, for each text and in input order, the
    first character, an exclamation mark and the second character. *)
Theorem compress_texts_to_first_two_characters :
  forall ss : list string,
    forallb (fun s => (is_ascii s && (3 <=? length s)%nat)%bool) ss = true ->
    compress_cell_references (map Txt ss) = Ret (map text_fallback ss).
Proof.
  intros ss H. apply compress_texts. apply Forall_forall. intros s Hs.
  rewrite forallb_forall in H. pose proof (H s Hs) as C.
  apply andb_prop in C. destruct C as [_ C]. now apply Nat.leb_le.
Qed.

Lemma compress_texts_to_first_two_characters_witness :
  forallb (fun s => (is_ascii s && (3 <=? length s)%nat)%bool)
    ["Sheet1!A1:A3"; "Data!B2"] = true
  /\ compress_cell_references (map Txt ["Sheet1!A1:A3"; "Data!B2"])
     = Ret (map text_fallback ["Sheet1!A1:A3"; "Data!B2"]).
Proof.
  split; [reflexivity|].
  apply (compress_texts_to_first_two_characters ["Sheet1!A1:A3"; "Data!B2"]).
  reflexivity.
Defined.

(** * Cell references in A1 notation, read back by the compressor *)

Lemma str_filter_app : forall p a b,
  str_filter p (a ++ b) = str_filter p a ++ str_filter p b.
Proof.
  intros p a b. induction a as [|c a IH]; [reflexivity|].
  cbn [append str_filter]. destruct (p c); cbn [append]; now rewrite IH.
Qed.

Lemma str_filter_all : forall p s, str_forall p s = true -> str_filter p s = s.
Proof.
  intros p. induction s as [|c s IH]; intros H; [reflexivity|].
  cbn [str_forall] in H. apply andb_prop in H. destruct H as [Hc Hs].
  cbn [str_filter]. now rewrite Hc, (IH Hs).
Qed.

Lemma str_filter_none : forall p s,
  str_forall (fun c => negb (p c)) s = true -> str_filter p s = "".
Proof.
  intros p. induction s as [|c s IH]; intros H; [reflexivity|].
  cbn [str_forall] in H. apply andb_prop in H. destruct H as [Hc Hs].
  apply negb_true_iff in Hc. cbn [str_filter]. now rewrite Hc, (IH Hs).
Qed.

Lemma append_empty_r : forall s : string, s ++ "" = s.
Proof. induction s as [|c s IH]; [reflexivity|]. cbn [append]. now rewrite IH. Qed.

Lemma upper_alpha_not_digit : forall c,
  is_upper c = true -> isalpha c = true /\ negb (isdigit c) = true.
Proof.
  intros c H.
  pose proof (for_all_ascii
    (fun c => implb (is_upper c) (isalpha c && negb (isdigit c)))%bool
    ltac:(vm_compute; reflexivity) c) as F.
  cbv beta in F. rewrite H in F. cbn [implb] in F. now apply andb_prop in F.
Qed.

Lemma digit_not_alpha : forall c, isdigit c = true -> negb (isalpha c) = true.
Proof.
  intros c H.
  pose proof (for_all_ascii (fun c => implb (isdigit c) (negb (isalpha c)))
                ltac:(vm_compute; reflexivity) c) as F.
  cbv beta in F. now rewrite H in F.
Qed.

(** [_cell_to_tuple] on column letters followed by a row number. *)
Lemma cell_to_tuple_letters_digits : forall letters digits,
  str_forall is_upper letters = true ->
  str_forall isdigit digits = true -> String.eqb digits "" = false ->
  _cell_to_tuple (letters ++ digits) = (letters, int_of_digits digits).
Proof.
  intros letters digits Hl Hd Nd. unfold _cell_to_tuple.
  rewrite !str_filter_app.
  rewrite (str_filter_all isalpha letters
             (str_forall_impl _ _ letters
                (fun c H => proj1 (upper_alpha_not_digit c H)) Hl)).
  rewrite (str_filter_none isalpha digits
             (str_forall_impl _ _ digits digit_not_alpha Hd)).
  rewrite (str_filter_none isdigit letters
             (str_forall_impl _ _ letters
                (fun c H => proj2 (upper_alpha_not_digit c H)) Hl)).
  rewrite (str_filter_all isdigit digits Hd).
  rewrite append_empty_r. cbn [append]. now rewrite Nd.
Qed.

(** The names of the columns 1 to 18278: upper-case letters, one at
    least, that [column_index_from_string] reads back. *)
Lemma column_names : forall col_idx,
  1 <= col_idx <= 18278 ->
  get_column_letter col_idx = Ret (column_name col_idx)
  /\ str_forall is_upper (column_name col_idx) = true
  /\ String.eqb (column_name col_idx) "" = false
  /\ column_index_from_string (column_name col_idx) = Ret col_idx.
Proof.
  intros col_idx H.
  assert (F : forallb (fun k =>
                let j := 1 + Z.of_nat k in
                (str_forall is_upper (column_name j)
                 && negb (String.eqb (column_name j) "")
                 && match column_index_from_string (column_name j) with
                    | Ret n => n =? j
                    | Raise _ => false
                    end)%bool) (seq 0 (Z.to_nat 18278)) = true)
    by (vm_compute; reflexivity).
  rewrite forallb_forall in F.
  specialize (F (Z.to_nat (col_idx - 1)) ltac:(apply in_seq; lia)).
  cbv zeta in F.
  replace (1 + Z.of_nat (Z.to_nat (col_idx - 1))) with col_idx in F by lia.
  apply andb_prop in F. destruct F as [F F3]. apply andb_prop in F.
  destruct F as [F1 F2]. apply negb_true_iff in F2.
  split; [|split; [exact F1 | split; [exact F2|]]].
  - unfold column_name, get_column_letter.
    destruct ((1 <=? col_idx) && (col_idx <=? 18278))%bool eqn:B; [reflexivity|].
    apply andb_false_iff in B. destruct B as [B | B]; apply Z.leb_gt in B; lia.
  - destruct (column_index_from_string (column_name col_idx)) as [n|e];
      [|discriminate F3].
    apply Z.eqb_eq in F3. now subst.
Qed.

Lemma get_column_letter_range : forall col_idx letters,
  get_column_letter col_idx = Ret letters ->
  1 <= col_idx <= 18278 /\ letters = column_name col_idx.
Proof.
  intros col_idx letters H. unfold column_name. rewrite H.
  unfold get_column_letter in H.
  destruct ((1 <=? col_idx) && (col_idx <=? 18278))%bool eqn:B; [|discriminate H].
  apply andb_prop in B. destruct B as [B1 B2].
  apply Z.leb_le in B1. apply Z.leb_le in B2. split; [lia | reflexivity].
Qed.

(** X21.  A cell reference written as column letters followed by a row
    number is read back as it was written: for a column that
    [get_column_letter] names and a row number that is not negative and has
    at most 4300 digits, [_cell_to_tuple] splits the reference into the
    column letters and the row number, [column_index_from_string] gives
    back the column index, and the sort key of the location is (sheet,
    column index, row number). *)
Theorem walker_references_decode :
  forall (sheet_name : string) (col_idx : Z) (letters : string) (row_idx : Z),
    get_column_letter col_idx = Ret letters ->
    0 <= row_idx ->
    str_limit_ok (VInt row_idx) = true ->
    _cell_to_tuple (letters ++ str_of_int row_idx) = (letters, row_idx)
    /\ column_index_from_string letters = Ret col_idx
    /\ sort_key (Loc sheet_name (letters ++ str_of_int row_idx))
       = Ret (sheet_name, col_idx, row_idx).
Proof.
  intros sheet_name col_idx letters row_idx H Hr _.
  destruct (get_column_letter_range col_idx letters H) as [R ->].
  destruct (column_names col_idx R) as [_ [U [_ C]]].
  assert (T : _cell_to_tuple (column_name col_idx ++ str_of_int row_idx)
              = (column_name col_idx, row_idx)).
  { rewrite (cell_to_tuple_letters_digits _ _ U (str_of_int_digits row_idx Hr)
               (numeral_not_blank _ (str_of_int_numeral row_idx))).
    now rewrite (int_of_str_of_int row_idx Hr). }
  split; [exact T|]. split; [exact C|].
  unfold sort_key. cbn [getitem bind]. rewrite T. cbn [fst snd].
  rewrite C. reflexivity.
Qed.

Lemma walker_references_decode_witness :
  get_column_letter 703 = Ret "AAA"
  /\ 0 <= 1234
  /\ str_limit_ok (VInt 1234) = true
  /\ _cell_to_tuple ("AAA" ++ str_of_int 1234) = ("AAA", 1234)
  /\ column_index_from_string "AAA" = Ret 703
  /\ sort_key (Loc "S" ("AAA" ++ str_of_int 1234)) = Ret ("S", 703, 1234).
Proof.
  assert (H : get_column_letter 703 = Ret "AAA") by reflexivity.
  assert (Hr : 0 <= 1234) by lia.
  assert (L : str_limit_ok (VInt 1234) = true) by reflexivity.
  split; [exact H|]. split; [exact Hr|]. split; [exact L|].
  exact (walker_references_decode "S" 703 "AAA" 1234 H Hr L).
Defined.

(** * The parsers *)

(** X18.  No parser returns a result for a document that has a sheet:
    whatever its arguments and the configuration are, [_process_cells]
    raises [TypeError] at the [isinstance] test that opens it, before it
    looks at a cell; [parse_csv] calls it on every file, [parse_excel] and
    [parse_ods] on the first sheet, and the handler of each raises
    [SpreadsheetParsingError] in its place. *)
Theorem parsers_always_raise :
  forall (re_match : string -> string -> outcome bool)
         (strptime : string -> string -> outcome unit)
         (self : compressor),
    (forall cs sheet_name,
       _process_cells re_match strptime self cs sheet_name = Raise TypeError)
    /\ (forall rows,
          parse_csv re_match strptime self rows = Raise SpreadsheetParsingError)
    /\ (forall ws wb,
          parse_excel re_match strptime self (ws :: wb) = Raise SpreadsheetParsingError)
    /\ (forall sheet data,
          parse_ods re_match strptime self (sheet :: data)
          = Raise SpreadsheetParsingError).
Proof.
  intros re_match strptime self. repeat split.
Qed.
